(** * teleprompt-2api (Bun edition): [src/index.ts]

    A shallow embedding of the request handlers of the server and the
    properties of its OpenAI-compatible surface.

    Conventions.
    - A JavaScript string is a [string]; one character stands for one
      UTF-16 code unit, the unit that [length], [slice], [substring] and
      [startsWith] count in.
    - A JavaScript value that the handlers touch is a [value]: the results
      of [JSON.parse], the object literals of the source, [undefined], and
      the members that a plain object inherits from [Object.prototype].
    - Numbers are the integral ones ([Z]): the handlers build only integers
      and test the numbers they receive for truthiness only.
    - The engine and the outside world (clock, random source, upstream
      service, client connection) are parameters of the handlers. *)

From Stdlib Require Import String Ascii List ZArith Lia Bool DecimalString.
From Equations Require Import Equations.
Import ListNotations.

Set Warnings "-register-all".
Local Open Scope list_scope.
Local Open Scope string_scope.

(* ------------------------------------------------------------------ *)
(** * JavaScript values                                                 *)
(* ------------------------------------------------------------------ *)

Inductive value : Type :=
| VUndefined
| VNull
| VBool (b : bool)
| VNum (n : Z)
| VStr (s : string)
| VArr (items : list value)
| VObj (props : list (string * value))
| VNative (name : string).
(** [VNative k] is the member [k] that every plain object inherits from
    [Object.prototype] (a builtin function, or the prototype itself for
    [__proto__]). *)

(** ToBoolean, as used by [!x], [x || y] and [if (x)]. *)
Definition truthy (v : value) : bool :=
  match v with
  | VUndefined | VNull => false
  | VBool b => b
  | VNum n => negb (n =? 0)%Z
  | VStr s => negb (s =? EmptyString)
  | VArr _ | VObj _ | VNative _ => true
  end.

(** [a || b]. *)
Definition js_or (a b : value) : value := if truthy a then a else b.

(** [v === 'lit'] for a string literal. *)
Definition strict_eq_string (v : value) (lit : string) : bool :=
  match v with
  | VStr s => s =? lit
  | _ => false
  end.

Fixpoint assoc {A : Type} (k : string) (l : list (string * A)) : option A :=
  match l with
  | [] => None
  | (k', v) :: rest => if k' =? k then Some v else assoc k rest
  end.

(** The property names defined on [Object.prototype]. *)
Definition Object_prototype : list string :=
  [ "constructor"; "__defineGetter__"; "__defineSetter__"; "hasOwnProperty";
    "__lookupGetter__"; "__lookupSetter__"; "isPrototypeOf";
    "propertyIsEnumerable"; "toString"; "valueOf"; "__proto__";
    "toLocaleString" ].

Definition on_Object_prototype (k : string) : bool :=
  existsb (String.eqb k) Object_prototype.

(** [o[k]] for a plain object [o] with own properties [props]: the own
    property, else the inherited one, else [undefined]. *)
Definition lookup (props : list (string * value)) (k : string) : value :=
  match assoc k props with
  | Some v => v
  | None => if on_Object_prototype k then VNative k else VUndefined
  end.

(** The members the handlers read with a static name ([body.messages],
    [m.role], ...).  None of these names is defined on a builtin prototype. *)
Inductive field : Type :=
| f_messages | f_model | f_stream | f_role | f_content | f_success | f_data.

Definition field_name (f : field) : string :=
  match f with
  | f_messages => "messages"
  | f_model => "model"
  | f_stream => "stream"
  | f_role => "role"
  | f_content => "content"
  | f_success => "success"
  | f_data => "data"
  end.

(** What the engine raises by itself. *)
Inductive fault : Type :=
| NullDeref (f : field)        (* reading a member of null or undefined *)
| NotCallable (what : string)  (* calling something that is not a function *)
| NotPrimitive                 (* converting an object to a primitive fails *)
| StreamErrored.               (* closing a writer whose stream is errored *)

(** An exception, as far as the handlers look at it: they read [e.message]. *)
Inductive exn : Type :=
| JsError (message : string)   (* [new Error(message)], or a rejection *)
| TypeError (f : fault).

Inductive Result (A : Type) : Type :=
| Ok (a : A)
| Throw (e : exn).
Arguments Ok {A} a.
Arguments Throw {A} e.

(** [v.f] *)
Definition member (v : value) (f : field) : Result value :=
  match v with
  | VUndefined | VNull => Throw (TypeError (NullDeref f))
  | VObj props => Ok (lookup props (field_name f))
  | VBool _ | VNum _ | VStr _ | VArr _ | VNative _ => Ok VUndefined
  end.

(** Path accessors for reading the objects the handlers build. *)
Definition prop (v : value) (k : string) : value :=
  match v with
  | VObj props => lookup props k
  | _ => VUndefined
  end.

Definition item (v : value) (i : nat) : value :=
  match v with
  | VArr items => nth i items VUndefined
  | _ => VUndefined
  end.

(** [s.slice(b, e)] for indices [0 <= b], [0 <= e]. *)
Definition slice (s : string) (b e : nat) : string := substring b (e - b) s.

(** [s.startsWith(p)] *)
Definition startsWith (s p : string) : bool := prefix p s.

(** [s.substring(n)] for [0 <= n]. *)
Definition substring_from (s : string) (n : nat) : string :=
  substring n (String.length s - n) s.

Definition LF : string := String "010"%char EmptyString.
Definition QUOTE : string := String "034"%char EmptyString.

(** Decimal rendering of an integer, as a template literal does it. *)
Definition decimal (n : Z) : string := NilZero.string_of_int (Z.to_int n).

(** The conversion of [v] to a primitive throws.  A plain object is
    converted by its [toString], else its [valueOf]: an object with an own
    [toString] key, which holds a JSON value and so nothing to call, falls
    through the inherited [valueOf], which returns the object itself, and
    the conversion throws.  An array is converted by joining the
    conversions of its elements. *)
Fixpoint unconvertible (v : value) : bool :=
  match v with
  | VObj props =>
      match assoc "toString" props with
      | Some _ => true
      | None => false
      end
  | VArr items => existsb unconvertible items
  | VUndefined | VNull | VBool _ | VNum _ | VStr _ | VNative _ => false
  end.

(** The engine's own functions: parameters of the model.  [ToString v] is
    the string that [v] converts to, where the conversion does not throw
    (see [unconvertible]). *)
Record Runtime : Type := {
  JSON_stringify : value -> string;
  ToString : value -> string;
  ToString_string : forall s, ToString (VStr s) = s;
  fault_message : fault -> string
}.

Definition message (rt : Runtime) (e : exn) : string :=
  match e with
  | JsError m => m
  | TypeError f => fault_message rt f
  end.

(* ------------------------------------------------------------------ *)
(** * Part 1: core configuration                                        *)
(* ------------------------------------------------------------------ *)

Definition PROJECT_NAME : string := "teleprompt-2api-bun".
Definition PROJECT_VERSION : string := "1.1.0".

(** [process.env.API_MASTER_KEY || "1"] *)
Definition API_MASTER_KEY (process_env : option string) : string :=
  match process_env with
  | Some k => if k =? EmptyString then "1" else k
  | None => "1"
  end.

Definition UPSTREAM_ORIGIN : string :=
  "https://teleprompt-v2-backend-production.up.railway.app".
Definition EXTENSION_ORIGIN : string :=
  "chrome-extension://alfpjlcndmeoainjfgbbnphcidpnmoae".
Definition USER_AGENT : string :=
  "Mozilla/5.0 (Windows NT 10.0; Win64; x64) AppleWebKit/537.36 (KHTML, like Gecko) Chrome/142.0.0.0 Safari/537.36".

Definition MODEL_MAP : list (string * value) :=
  [ ("teleprompt-reason", VStr "/api/v1/prompt/optimize_reason_auth");
    ("teleprompt-standard", VStr "/api/v1/prompt/optimize_auth");
    ("teleprompt-apps", VStr "/api/v1/prompt/optimize_apps_auth") ].

Definition DEFAULT_MODEL : string := "teleprompt-reason".
Definition STREAM_DELAY : Z := 10.

(* ------------------------------------------------------------------ *)
(** * Responses                                                         *)
(* ------------------------------------------------------------------ *)

(** A response body.  [BodyJson v] is the text [JSON.stringify(v)];
    [BodyReadable text model requestId] is the readable end of the stream
    that the task started by [handleStreamResponse text model requestId]
    writes to. *)
Inductive Body : Type :=
| BodyNull
| BodyJson (v : value)
| BodyReadable (text model : value) (requestId : string).

Record Response : Type := mkResponse {
  status : Z;
  headers : list (string * string);
  body : Body
}.

Definition corsHeaders (hs : list (string * string)) : list (string * string) :=
  hs ++ [ ("Access-Control-Allow-Origin", "*");
          ("Access-Control-Allow-Methods", "GET, POST, OPTIONS");
          ("Access-Control-Allow-Headers", "Content-Type, Authorization") ].

Definition createErrorResponse (msg : string) (st : Z) (code : string) : Response :=
  {| status := st;
     headers := corsHeaders [("Content-Type", "application/json; charset=utf-8")];
     body := BodyJson (VObj [("error",
               VObj [("message", VStr msg); ("type", VStr "api_error");
                     ("code", VStr code)])]) |}.

Definition handleCorsPreflight : Response :=
  {| status := 204; headers := corsHeaders []; body := BodyNull |}.

(** The text on the wire of a body that is not a stream. *)
Definition body_text (rt : Runtime) (b : Body) : option string :=
  match b with
  | BodyNull => Some EmptyString
  | BodyJson v => Some (JSON_stringify rt v)
  | BodyReadable _ _ _ => None
  end.

(* ------------------------------------------------------------------ *)
(** * The outside world                                                 *)
(* ------------------------------------------------------------------ *)

(** An inbound request, as the handlers observe it. *)
Record Request : Type := mkRequest {
  method : string;
  pathname : string;                 (* new URL(request.url).pathname *)
  authorization : option string;     (* request.headers.get('Authorization') *)
  request_json : Result value        (* await request.json() *)
}.

(** The response of the upstream service, as the handler observes it. *)
Record UpstreamResponse : Type := mkUpstreamResponse {
  up_status : Z;                     (* response.status *)
  up_text : Result string;           (* await response.text() *)
  up_json : Result value             (* await response.json() *)
}.

(** [response.ok] *)
Definition ok (r : UpstreamResponse) : bool :=
  ((200 <=? up_status r) && (up_status r <=? 299))%Z.

(** The arguments of one outbound [fetch]. *)
Record FetchCall : Type := mkFetchCall {
  fetch_url : string;
  fetch_method : string;
  fetch_headers : list (string * string);
  fetch_body : string
}.

(** One [writer.write(encoder.encode(...))] of the stream task. *)
Inductive Frame : Type :=
| SseJson (payload : value)  (* `data: ${JSON.stringify(payload)}\n\n` *)
| SseText (record : string). (* a literal record *)

Definition frame_text (rt : Runtime) (f : Frame) : string :=
  match f with
  | SseJson payload => "data: " ++ JSON_stringify rt payload ++ LF ++ LF
  | SseText record => record
  end.

(** What the world answers: the process environment, the clock, the random
    source, the upstream service and the client end of a stream. *)
Record Env : Type := mkEnv {
  process_env_API_MASTER_KEY : option string;
  Date_now : nat -> Z;                 (* the k-th reading of Date.now(), in ms *)
  randomUUID : nat -> string;          (* the k-th crypto.randomUUID() *)
  upstream : FetchCall -> Result UpstreamResponse; (* Throw: fetch rejects *)
  write_outcome : nat -> Result unit   (* the writer once k records are
                                          accepted: Ok while the client is
                                          connected; Throw e once the stream
                                          is errored with e (the client has
                                          gone away), when a write is
                                          rejected with e and close is
                                          rejected too *)
}.

(** What a handler changes. *)
Record World : Type := mkWorld {
  clock_reads : nat;
  uuid_draws : nat;
  outbound : list FetchCall;
  console : list (string * option exn);
  sink : list Frame;                   (* the frames the writer accepted *)
  closed : bool                        (* writer.close() went through *)
}.

Definition fresh : World :=
  {| clock_reads := 0; uuid_draws := 0; outbound := []; console := [];
     sink := []; closed := false |}.

(** A small state and exception monad for the handlers. *)
Definition M (A : Type) : Type := World -> Result A * World.

Definition ret {A : Type} (a : A) : M A := fun w => (Ok a, w).

Definition bind {A B : Type} (m : M A) (k : A -> M B) : M B :=
  fun w =>
    match m w with
    | (Ok a, w') => k a w'
    | (Throw e, w') => (Throw e, w')
    end.

Definition throw {A : Type} (e : exn) : M A := fun w => (Throw e, w).

Definition lift {A : Type} (r : Result A) : M A := fun w => (r, w).

(** [try { m } catch (e) { h e }] *)
Definition try_catch {A : Type} (m : M A) (h : exn -> M A) : M A :=
  fun w =>
    match m w with
    | (Ok a, w') => (Ok a, w')
    | (Throw e, w') => h e w'
    end.

(** [try { m } finally { f }] *)
Definition try_finally {A : Type} (m : M A) (f : M unit) : M A :=
  fun w =>
    match m w with
    | (r, w') =>
        match f w' with
        | (Ok _, w'') => (r, w'')
        | (Throw e, w'') => (Throw e, w'')
        end
    end.

Notation "x <- m ;; k" := (bind m (fun x => k))
  (at level 61, m at next level, right associativity).
Notation "m ;;; k" := (bind m (fun _ => k))
  (at level 61, right associativity).

(** Pure bind on [Result], for the callbacks of array methods. *)
Definition rbind {A B : Type} (r : Result A) (k : A -> Result B) : Result B :=
  match r with
  | Ok a => k a
  | Throw e => Throw e
  end.

(** [arr.reverse()]: defined on arrays only. *)
Definition Array_reverse (v : value) : Result value :=
  match v with
  | VArr items => Ok (VArr (rev items))
  | VUndefined | VNull => Throw (TypeError (NotCallable "messages.reverse"))
  | VBool _ | VNum _ | VStr _ | VObj _ | VNative _ =>
      Throw (TypeError (NotCallable "messages.reverse"))
  end.

(** [items.find(p)]: the first element that satisfies [p], else [undefined]. *)
Fixpoint Array_find (p : value -> Result bool) (items : list value) : Result value :=
  match items with
  | [] => Ok VUndefined
  | m :: rest =>
      rbind (p m) (fun hit => if hit then Ok m else Array_find p rest)
  end.

(** [m => m.role === 'user'] *)
Definition is_user (m : value) : Result bool :=
  rbind (member m f_role) (fun r => Ok (strict_eq_string r "user")).

(** [messages.reverse().find(m => m.role === 'user')] *)
Definition find_last_user (messages : value) : Result value :=
  rbind (Array_reverse messages) (fun reversed =>
    match reversed with
    | VArr items => Array_find is_user items
    | _ => Ok VUndefined
    end).

(* ------------------------------------------------------------------ *)
(** * Part 3: API logic                                                 *)
(* ------------------------------------------------------------------ *)

Section Handlers.

Variable rt : Runtime.
Variable env : Env.

(** ** Primitive effects *)

(** [Date.now()] *)
Definition date_now : M Z :=
  fun w =>
    (Ok (Date_now env (clock_reads w)),
     {| clock_reads := S (clock_reads w); uuid_draws := uuid_draws w;
        outbound := outbound w; console := console w;
        sink := sink w; closed := closed w |}).

(** [crypto.randomUUID()] *)
Definition crypto_randomUUID : M string :=
  fun w =>
    (Ok (randomUUID env (uuid_draws w)),
     {| clock_reads := clock_reads w; uuid_draws := S (uuid_draws w);
        outbound := outbound w; console := console w;
        sink := sink w; closed := closed w |}).

(** [await fetch(url, init)] *)
Definition fetch (call : FetchCall) : M UpstreamResponse :=
  fun w =>
    (upstream env call,
     {| clock_reads := clock_reads w; uuid_draws := uuid_draws w;
        outbound := outbound w ++ [call]; console := console w;
        sink := sink w; closed := closed w |}).

(** [console.error(text, e)] *)
Definition console_error (text : string) (e : option exn) : M unit :=
  fun w =>
    (Ok tt,
     {| clock_reads := clock_reads w; uuid_draws := uuid_draws w;
        outbound := outbound w; console := console w ++ [(text, e)];
        sink := sink w; closed := closed w |}).

(** [await writer.write(encoder.encode(frame))] *)
Definition writer_write (f : Frame) : M unit :=
  fun w =>
    match write_outcome env (List.length (sink w)) with
    | Ok _ =>
        (Ok tt,
         {| clock_reads := clock_reads w; uuid_draws := uuid_draws w;
            outbound := outbound w; console := console w;
            sink := sink w ++ [f]; closed := closed w |})
    | Throw e => (Throw e, w)
    end.

(** [await writer.close()]: rejected when the stream is errored, as it is
    after a write that failed. *)
Definition writer_close : M unit :=
  fun w =>
    match write_outcome env (List.length (sink w)) with
    | Ok _ =>
        (Ok tt,
         {| clock_reads := clock_reads w; uuid_draws := uuid_draws w;
            outbound := outbound w; console := console w;
            sink := sink w; closed := true |})
    | Throw _ => (Throw (TypeError StreamErrored), w)
    end.

(** [await new Promise(r => setTimeout(r, ms))]: time passes, which later
    readings of the clock show. *)
Definition sleep (ms : Z) : M unit := ret tt.

(** [Math.floor(Date.now() / 1000)] *)
Definition epoch_seconds : M Z := now <- date_now ;; ret (now / 1000)%Z.

(** ** GET /v1/models *)

Fixpoint mapM {A B : Type} (f : A -> M B) (l : list A) : M (list B) :=
  match l with
  | [] => ret []
  | a :: rest => b <- f a ;; bs <- mapM f rest ;; ret (b :: bs)
  end.

Definition handleModelsRequest : M Response :=
  data <- mapM (fun modelId =>
            created <- epoch_seconds ;;
            ret (VObj [("id", VStr modelId); ("object", VStr "model");
                       ("created", VNum created);
                       ("owned_by", VStr "teleprompt-bun")]))
          (map fst MODEL_MAP) ;;
  ret {| status := 200;
         headers := corsHeaders [("Content-Type", "application/json; charset=utf-8")];
         body := BodyJson (VObj [("object", VStr "list"); ("data", VArr data)]) |}.

(** ** Normal JSON response *)

(** The object literal of [handleNormalResponse]. *)
Definition ChatCompletion (requestId : string) (created : Z) (model text : value) : value :=
  VObj [("id", VStr requestId);
        ("object", VStr "chat.completion");
        ("created", VNum created);
        ("model", model);
        ("choices", VArr [VObj [("index", VNum 0);
                                ("message", VObj [("role", VStr "assistant");
                                                  ("content", text)]);
                                ("finish_reason", VStr "stop")]]);
        ("usage", VObj [("prompt_tokens", VNum 0);
                        ("completion_tokens", VNum 0);
                        ("total_tokens", VNum 0)])].

Definition handleNormalResponse (text model : value) (requestId : string) : M Response :=
  created <- epoch_seconds ;;
  ret {| status := 200;
         headers := corsHeaders [("Content-Type", "application/json")];
         body := BodyJson (ChatCompletion requestId created model text) |}.

(** ** Pseudo-streaming response *)

Definition chunkSize : nat := 2.

(** The object literal [chunk] of the loop. *)
Definition contentChunk (requestId : string) (created : Z) (model : value)
    (chunkContent : string) : value :=
  VObj [("id", VStr requestId);
        ("object", VStr "chat.completion.chunk");
        ("created", VNum created);
        ("model", model);
        ("choices", VArr [VObj [("index", VNum 0);
                                ("delta", VObj [("content", VStr chunkContent)]);
                                ("finish_reason", VNull)]])].

(** The object literal [endChunk]. *)
Definition endChunk (requestId : string) (created : Z) (model : value) : value :=
  VObj [("id", VStr requestId);
        ("object", VStr "chat.completion.chunk");
        ("created", VNum created);
        ("model", model);
        ("choices", VArr [VObj [("index", VNum 0);
                                ("delta", VObj []);
                                ("finish_reason", VStr "stop")]])].

Definition DONE : string := "data: [DONE]" ++ LF ++ LF.

(** [for (let i = ...; i < text.length; i += chunkSize) { ... }] *)
Equations streamLoop (text : string) (model : value) (requestId : string)
    (i : nat) : M unit by wf (String.length text - i) lt :=
  streamLoop text model requestId i with lt_dec i (String.length text) := {
    | left _ =>
        let chunkContent := slice text i (i + chunkSize) in
        created <- epoch_seconds ;;
        writer_write (SseJson (contentChunk requestId created model chunkContent)) ;;;
        sleep STREAM_DELAY ;;;
        streamLoop text model requestId (i + chunkSize)
    | right _ => ret tt
  }.
Next Obligation. unfold chunkSize. lia. Qed.

(** The task that [handleStreamResponse] starts: the body of its
    [(async () => { ... })()]. *)
Definition streamTask (text : string) (model : value) (requestId : string) : M unit :=
  try_finally
    (try_catch
       (streamLoop text model requestId 0 ;;;
        created <- epoch_seconds ;;
        writer_write (SseJson (endChunk requestId created model)) ;;;
        writer_write (SseText DONE))
       (fun err => console_error "Stream write error:" (Some err)))
    writer_close.

Definition handleStreamResponse (text model : value) (requestId : string) : M Response :=
  ret {| status := 200;
         headers := corsHeaders [("Content-Type", "text/event-stream");
                                 ("Cache-Control", "no-cache");
                                 ("Connection", "keep-alive")];
         body := BodyReadable text model requestId |}.

(** ** POST /v1/chat/completions *)

(** The conversion of [model] to a property key, in [CONFIG.MODEL_MAP[model]]:
    it throws where [model] cannot be converted to a primitive, and gives
    the engine's string otherwise. *)
Definition ToPropertyKey (model : value) : Result string :=
  if unconvertible model then Throw (TypeError NotPrimitive)
  else Ok (ToString rt model).

(** [CONFIG.MODEL_MAP[model] || CONFIG.MODEL_MAP[CONFIG.DEFAULT_MODEL]],
    where the conversion of [model] to a property key does not throw: the
    key is [model] converted to a string. *)
Definition resolveEndpoint (model : value) : value :=
  js_or (lookup MODEL_MAP (ToString rt model)) (lookup MODEL_MAP DEFAULT_MODEL).

Definition upstreamHeaders (randomEmail : string) : list (string * string) :=
  [ ("Content-Type", "application/json");
    ("Accept", "*/*");
    ("Origin", EXTENSION_ORIGIN);
    ("User-Agent", USER_AGENT);
    ("email", randomEmail);
    ("sec-fetch-dest", "empty");
    ("sec-fetch-mode", "cors");
    ("sec-fetch-site", "none") ].

(** The [try] block from [if (!response.ok)] on: the check of the upstream
    response and the answer built from it. *)
Definition chatCompletions_answer (body model : value) (response : UpstreamResponse)
    (requestId : string) : M Response :=
  if negb (ok response) then
    errorText <- lift (up_text response) ;;
    throw (JsError ("Upstream Error (" ++ decimal (up_status response) ++ "): "
                    ++ errorText))
  else
    data <- lift (up_json response) ;;
    data_success <- lift (member data f_success) ;;
    refused <- (if negb (truthy data_success) then ret true
                else data_data <- lift (member data f_data) ;;
                     ret (negb (truthy data_data))) ;;
    if (refused : bool) then
      throw (JsError ("Upstream Business Error: " ++ JSON_stringify rt data))
    else
      resultText <- lift (member data f_data) ;;
      body_stream <- lift (member body f_stream) ;;
      if truthy body_stream then handleStreamResponse resultText model requestId
      else handleNormalResponse resultText model requestId.

(** The [try] block from [const prompt = lastMsg.content] to the upstream
    call. *)
Definition chatCompletions_forward (body lastMsg : value) (requestId : string) : M Response :=
  prompt <- lift (member lastMsg f_content) ;;
  body_model <- lift (member body f_model) ;;
  let model := js_or body_model (VStr DEFAULT_MODEL) in
  lift (ToPropertyKey model) ;;;
  let endpoint := resolveEndpoint model in
  uuid <- crypto_randomUUID ;;
  let randomEmail := uuid ++ "@anonymous.user" in
  let upstreamPayload := VObj [("text", prompt)] in
  response <- fetch {| fetch_url := UPSTREAM_ORIGIN ++ ToString rt endpoint;
                       fetch_method := "POST";
                       fetch_headers := upstreamHeaders randomEmail;
                       fetch_body := JSON_stringify rt upstreamPayload |} ;;
  chatCompletions_answer body model response requestId.

(** The [try] block. *)
Definition chatCompletions_try (request : Request) (requestId : string) : M Response :=
  body <- lift (request_json request) ;;
  body_messages <- lift (member body f_messages) ;;
  let messages := js_or body_messages (VArr []) in
  lastMsg <- lift (find_last_user messages) ;;
  if negb (truthy lastMsg) then
    ret (createErrorResponse "User message not found (role: user)" 400 "invalid_request")
  else chatCompletions_forward body lastMsg requestId.

Definition handleChatCompletions (request : Request) (requestId : string) : M Response :=
  try_catch (chatCompletions_try request requestId)
    (fun e =>
       console_error ("[Error] " ++ message rt e) None ;;;
       ret (createErrorResponse (message rt e) 500 "generation_failed")).

(** ** Route dispatcher *)

(** The auth check of [handleApi]: the response it returns early, if any. *)
Definition authCheck (request : Request) : option Response :=
  let authHeader := authorization request in
  let apiKey := API_MASTER_KEY (process_env_API_MASTER_KEY env) in
  if negb (apiKey =? EmptyString) && negb (apiKey =? "1") then
    match authHeader with
    | None =>
        Some (createErrorResponse "Missing or invalid Authorization header." 401 "unauthorized")
    | Some h =>
        if (h =? EmptyString) || negb (startsWith h "Bearer ") then
          Some (createErrorResponse "Missing or invalid Authorization header." 401 "unauthorized")
        else
          let token := substring_from h 7 in
          if negb (token =? apiKey) then
            Some (createErrorResponse "Invalid API Key." 403 "invalid_api_key")
          else None
    end
  else None.

Definition handleApi (request : Request) : M Response :=
  match authCheck request with
  | Some rejection => ret rejection
  | None =>
      uuid <- crypto_randomUUID ;;
      let requestId := "req-" ++ uuid in
      if pathname request =? "/v1/models" then handleModelsRequest
      else if pathname request =? "/v1/chat/completions" then
        handleChatCompletions request requestId
      else
        ret (createErrorResponse ("Method not allowed for: " ++ pathname request) 404 "not_found")
  end.

(** ** Part 2: the server entry, [Bun.serve({ fetch })] *)

Definition serve (request : Request) : M Response :=
  if method request =? "OPTIONS" then ret handleCorsPreflight
  else if pathname request =? "/" then
    ret {| status := 200;
           headers := corsHeaders [("Content-Type", "application/json")];
           body := BodyJson (VObj [("status", VStr "alive");
                                   ("service", VStr PROJECT_NAME);
                                   ("version", VStr PROJECT_VERSION)]) |}
  else if startsWith (pathname request) "/v1/" then handleApi request
  else ret (createErrorResponse ("Path not found: " ++ pathname request) 404 "not_found").

End Handlers.

(* ------------------------------------------------------------------ *)
(** * Running the model                                                 *)
(* ------------------------------------------------------------------ *)

(** A runtime to run the handlers on concrete inputs.  It renders values
    compactly and strings without escapes. *)
Fixpoint render (v : value) : string :=
  match v with
  | VUndefined => "undefined"
  | VNull => "null"
  | VBool true => "true"
  | VBool false => "false"
  | VNum n => decimal n
  | VStr s => QUOTE ++ s ++ QUOTE
  | VArr items => "[" ++ String.concat "," (map render items) ++ "]"
  | VObj props =>
      "{" ++ String.concat ","
               (map (fun kv => QUOTE ++ fst kv ++ QUOTE ++ ":" ++ render (snd kv)) props)
          ++ "}"
  | VNative name => "function " ++ name ++ "() { [native code] }"
  end.

Definition render_key (v : value) : string :=
  match v with
  | VStr s => s
  | _ => render v
  end.

Definition sample_runtime : Runtime :=
  {| JSON_stringify := render;
     ToString := render_key;
     ToString_string := fun s => eq_refl;
     fault_message := fun f =>
       match f with
       | NullDeref fld => "null is not an object (reading " ++ field_name fld ++ ")"
       | NotCallable what => what ++ " is not a function"
       | NotPrimitive => "Cannot convert object to primitive value"
       | StreamErrored => "Cannot close a stream that is errored"
       end |}.

(* ------------------------------------------------------------------ *)
(** * The data model of the chat API                                    *)
(* ------------------------------------------------------------------ *)

(** A message of a chat request, and the value [JSON.parse] makes of it. *)
Record Message : Type := mkMessage {
  role : string;
  content : string
}.

Definition message_value (m : Message) : value :=
  VObj [("role", VStr (role m)); ("content", VStr (content m))].

(** [m] is the most recent message of [ms] with role "user". *)
Definition last_user_message (ms : list Message) (m : Message) : Prop :=
  exists before after : list Message,
    ms = (before ++ m :: after)%list /\
    role m = "user" /\
    Forall (fun x => role x <> "user") after.

(** The body of a chat request: a JSON object whose [messages] are [ms]. *)
Definition chat_body (request : Request) (props : list (string * value))
    (ms : list Message) : Prop :=
  request_json request = Ok (VObj props) /\
  lookup props "messages" = VArr (map message_value ms).

(** The two error responses the claims name. *)
Definition invalid_request : Response :=
  createErrorResponse "User message not found (role: user)" 400 "invalid_request".

Definition generation_failed (msg : string) : Response :=
  createErrorResponse msg 500 "generation_failed".

(* ------------------------------------------------------------------ *)
(** * The stream, as a client reads it                                  *)
(* ------------------------------------------------------------------ *)

Definition concatenation (parts : list string) : string :=
  fold_right append EmptyString parts.

Definition ceil_div (a b : nat) : nat := (a + b - 1) / b.

(** Reading a chunk the way a client does. *)
Definition delta_of (chunk : value) : value :=
  prop (item (prop chunk "choices") 0) "delta".

Definition finish_reason_of (chunk : value) : value :=
  prop (item (prop chunk "choices") 0) "finish_reason".

(** A content-bearing chunk that carries [content]. *)
Definition content_bearing (chunk : value) (content : string) : Prop :=
  prop chunk "object" = VStr "chat.completion.chunk" /\
  prop (delta_of chunk) "content" = VStr content /\
  finish_reason_of chunk = VNull.

(** The terminal chunk: an empty delta and [finish_reason] "stop". *)
Definition terminal (chunk : value) : Prop :=
  prop chunk "object" = VStr "chat.completion.chunk" /\
  delta_of chunk = VObj [] /\
  finish_reason_of chunk = VStr "stop".

(** The frames of a complete stream for the text [T]: content-bearing
    chunks that spell [T], as many as [ceil (length T / chunkSize)], then
    one terminal chunk, then the [DONE] record. *)
Definition complete_stream (T : string) (frames : list Frame) : Prop :=
  exists (chunks : list value) (contents : list string) (last : value),
    frames = (map SseJson chunks ++ [SseJson last; SseText DONE])%list /\
    Forall2 content_bearing chunks contents /\
    concatenation contents = T /\
    List.length chunks = ceil_div (String.length T) chunkSize /\
    terminal last.

(** The [try { ... } catch (err) { ... }] of the stream task, without its
    [finally]. *)
Definition streamAttempt (env : Env) (text : string) (model : value)
    (requestId : string) : M unit :=
  try_catch
    (streamLoop env text model requestId 0 ;;;
     created <- epoch_seconds env ;;
     writer_write env (SseJson (endChunk requestId created model)) ;;;
     writer_write env (SseText DONE))
    (fun err => console_error "Stream write error:" (Some err)).

(** The client stays connected: every write is accepted. *)
Definition connected (env : Env) : Prop :=
  forall k, write_outcome env k = Ok tt.

(** The [j]-th frame written since the clock position [base], when it is a
    chunk, carries the request id, the model and the second of the
    [base + j]-th reading of the clock. *)
Definition stamped (env : Env) (requestId : string) (model : value)
    (base : nat) (new : list Frame) : Prop :=
  forall (j : nat) (payload : value),
    nth_error new j = Some (SseJson payload) ->
    prop payload "id" = VStr requestId /\
    prop payload "model" = model /\
    prop payload "created" = VNum (Date_now env (base + j) / 1000).

(** All chunks of a response carry one id and one created timestamp. *)
Definition same_id_and_created (frames : list Frame) : Prop :=
  exists id created : value,
    forall payload : value,
      In (SseJson payload) frames ->
      prop payload "id" = id /\ prop payload "created" = created.

(* ------------------------------------------------------------------ *)
(** * The upstream exchange of a chat request                           *)
(* ------------------------------------------------------------------ *)

(** [body.model || CONFIG.DEFAULT_MODEL] of a body with properties [props]. *)
Definition chosenModel (props : list (string * value)) : value :=
  js_or (lookup props "model") (VStr DEFAULT_MODEL).

(** The outbound call for a body [props] whose user message is [m], made in
    the world [w]. *)
Definition upstreamCall (rt : Runtime) (env : Env) (props : list (string * value))
    (m : Message) (w : World) : FetchCall :=
  {| fetch_url := UPSTREAM_ORIGIN ++ ToString rt (resolveEndpoint rt (chosenModel props));
     fetch_method := "POST";
     fetch_headers := upstreamHeaders (randomUUID env (uuid_draws w) ++ "@anonymous.user");
     fetch_body := JSON_stringify rt (VObj [("text", VStr (content m))]) |}.

(** The world after the call. *)
Definition called (call : FetchCall) (w : World) : World :=
  {| clock_reads := clock_reads w; uuid_draws := S (uuid_draws w);
     outbound := (outbound w ++ [call])%list; console := console w;
     sink := sink w; closed := closed w |}.

(** The upstream answered with a success status and a JSON envelope whose
    [success] and [data] are both truthy; [text] is that [data]. *)
Definition accepted (outcome : Result UpstreamResponse) (text : value) : Prop :=
  exists (r : UpstreamResponse) (data success : value),
    outcome = Ok r /\ ok r = true /\ up_json r = Ok data /\
    member data f_success = Ok success /\ truthy success = true /\
    member data f_data = Ok text /\ truthy text = true.


(* ------------------------------------------------------------------ *)
(** * Concrete worlds and requests                                      *)
(* ------------------------------------------------------------------ *)

(** The upstream of the examples of the specification: it answers every
    call with 200 and [{success: true, data: "Hi there"}]. *)
Definition greeting : UpstreamResponse :=
  {| up_status := 200;
     up_text := Ok "{success:true,data:Hi there}";
     up_json := Ok (VObj [("success", VBool true); ("data", VStr "Hi there")]) |}.

(** No master key, a clock that stays within one second, a connected
    client. *)
Definition steady_env : Env :=
  {| process_env_API_MASTER_KEY := None;
     Date_now := fun k => (1700000000000 + Z.of_nat k)%Z;
     randomUUID := fun k => "uuid-" ++ decimal (Z.of_nat k);
     upstream := fun _ => Ok greeting;
     write_outcome := fun _ => Ok tt |}.

(** The same, with a clock read at 995 ms, 1005 ms, 1015 ms, ...: one
    reading every [STREAM_DELAY]. *)
Definition ticking_env : Env :=
  {| process_env_API_MASTER_KEY := None;
     Date_now := fun k => (995 + STREAM_DELAY * Z.of_nat k)%Z;
     randomUUID := fun k => "uuid-" ++ decimal (Z.of_nat k);
     upstream := fun _ => Ok greeting;
     write_outcome := fun _ => Ok tt |}.

(** The same as [steady_env], with a client that has gone away before the
    first write. *)
Definition disconnected_env : Env :=
  {| process_env_API_MASTER_KEY := None;
     Date_now := fun k => (1700000000000 + Z.of_nat k)%Z;
     randomUUID := fun k => "uuid-" ++ decimal (Z.of_nat k);
     upstream := fun _ => Ok greeting;
     write_outcome := fun _ => Throw (JsError "The stream is closed") |}.


(** The same as [steady_env], with the master key "secret". *)
Definition keyed_env : Env :=
  {| process_env_API_MASTER_KEY := Some "secret";
     Date_now := fun k => (1700000000000 + Z.of_nat k)%Z;
     randomUUID := fun k => "uuid-" ++ decimal (Z.of_nat k);
     upstream := fun _ => Ok greeting;
     write_outcome := fun _ => Ok tt |}.

Definition hello : Message := {| role := "user"; content := "Hello" |}.

(** The properties of the body [{messages: [hello], ...extra}]. *)
Definition hello_props (extra : list (string * value)) : list (string * value) :=
  ("messages", VArr [message_value hello]) :: extra.

(** POST /v1/chat/completions with that body. *)
Definition hello_request (extra : list (string * value)) : Request :=
  {| method := "POST";
     pathname := "/v1/chat/completions";
     authorization := None;
     request_json := Ok (VObj (hello_props extra)) |}.

(** POST /v1/chat/completions with a body that is not JSON. *)
Definition malformed_request : Request :=
  {| method := "POST";
     pathname := "/v1/chat/completions";
     authorization := None;
     request_json := Throw (JsError "JSON Parse error: Unexpected EOF") |}.

(** GET /v1/models with the given Authorization header. *)
Definition models_request (auth : option string) : Request :=
  {| method := "GET";
     pathname := "/v1/models";
     authorization := auth;
     request_json := Throw (JsError "JSON Parse error: Unexpected EOF") |}.

Definition briefing : Message := {| role := "system"; content := "Be brief" |}.

(** POST /v1/chat/completions with the body [{messages: [briefing]}]. *)
Definition briefing_request : Request :=
  {| method := "POST";
     pathname := "/v1/chat/completions";
     authorization := None;
     request_json := Ok (VObj [("messages", VArr [message_value briefing])]) |}.

(* ------------------------------------------------------------------ *)
(** * The auth check, as a client sees it                                *)
(* ------------------------------------------------------------------ *)

Definition unauthorized : Response :=
  createErrorResponse "Missing or invalid Authorization header." 401 "unauthorized".

Definition invalid_api_key : Response :=
  createErrorResponse "Invalid API Key." 403 "invalid_api_key".

(** The response is one of the two auth rejections. *)
Definition rejected_for_auth (response : Response) : Prop :=
  status response = 401%Z \/ status response = 403%Z.

(** The endpoint path is one of the registry. *)
Definition registered_endpoint (endpoint : value) : Prop :=
  exists (modelId path : string),
    In (modelId, VStr path) MODEL_MAP /\ endpoint = VStr path.

(** The endpoint of the default model. *)
Definition default_endpoint : string := "/api/v1/prompt/optimize_reason_auth".

(* ------------------------------------------------------------------ *)
(** * Vocabulary for the properties of the whole server                 *)
(* ------------------------------------------------------------------ *)

(** The response of [handleNormalResponse]. *)
Definition completion_response (requestId : string) (created : Z)
    (model text : value) : Response :=
  {| status := 200;
     headers := corsHeaders [("Content-Type", "application/json")];
     body := BodyJson (ChatCompletion requestId created model text) |}.

(** The response of [handleStreamResponse]. *)
Definition stream_response (text model : value) (requestId : string) : Response :=
  {| status := 200;
     headers := corsHeaders [("Content-Type", "text/event-stream");
                             ("Cache-Control", "no-cache");
                             ("Connection", "keep-alive")];
     body := BodyReadable text model requestId |}.

(** The world after [n] more readings of the clock. *)
Definition ticked (n : nat) (w : World) : World :=
  {| clock_reads := clock_reads w + n; uuid_draws := uuid_draws w;
     outbound := outbound w; console := console w;
     sink := sink w; closed := closed w |}.

(** The world after one more random draw. *)
Definition drawn (w : World) : World :=
  {| clock_reads := clock_reads w; uuid_draws := S (uuid_draws w);
     outbound := outbound w; console := console w;
     sink := sink w; closed := closed w |}.

(** The error code that goes with each error status in the source. *)
Definition error_code (st : Z) : option string :=
  if (st =? 400)%Z then Some "invalid_request"
  else if (st =? 401)%Z then Some "unauthorized"
  else if (st =? 403)%Z then Some "invalid_api_key"
  else if (st =? 404)%Z then Some "not_found"
  else if (st =? 500)%Z then Some "generation_failed"
  else None.

(** The three CORS headers. *)
Definition carries_cors (response : Response) : Prop :=
  In ("Access-Control-Allow-Origin", "*") (headers response) /\
  In ("Access-Control-Allow-Methods", "GET, POST, OPTIONS") (headers response) /\
  In ("Access-Control-Allow-Headers", "Content-Type, Authorization") (headers response).

(** A JSON value that is neither an object nor null. *)
Definition scalar_or_array (v : value) : Prop :=
  match v with
  | VBool _ | VNum _ | VStr _ | VArr _ => True
  | VUndefined | VNull | VObj _ | VNative _ => False
  end.

(** A server-sent event record: [data: <payload>\n\n]. *)
Definition sse_record (text : string) : Prop :=
  exists payload : string, text = "data: " ++ payload ++ LF ++ LF.

(** Successive readings of the clock never go back. *)
Definition monotone_clock (env : Env) : Prop :=
  forall a b : nat, a <= b -> (Date_now env a <= Date_now env b)%Z.

(** The world after [console.error(`[Error] ${msg}`)]. *)
Definition logged (msg : string) (w : World) : World :=
  {| clock_reads := clock_reads w; uuid_draws := uuid_draws w;
     outbound := outbound w;
     console := (console w ++ [(("[Error] " ++ msg)%string, None)])%list;
     sink := sink w; closed := closed w |}.

(** A call to the upstream origin. *)
Definition upstream_post (call : FetchCall) : Prop :=
  fetch_method call = "POST" /\
  exists endpoint : string, fetch_url call = UPSTREAM_ORIGIN ++ endpoint.

(** One entry of the model list, for the model [modelId]. *)
Definition model_entry (modelId : string) (created : Z) : value :=
  VObj [("id", VStr modelId); ("object", VStr "model");
        ("created", VNum created); ("owned_by", VStr "teleprompt-bun")].

(* ------------------------------------------------------------------ *)
(** * String slices                                                     *)
(* ------------------------------------------------------------------ *)

Lemma substring_zero_length (s : string) (n : nat) : substring n 0 s = EmptyString.
Proof.
  revert n. induction s as [| c s IH]; intros [| n]; simpl; auto.
Qed.

Lemma substring_append (s : string) (n a b : nat) :
  (substring n a s ++ substring (n + a) b s)%string = substring n (a + b) s.
Proof.
  revert n a b. induction s as [| c s IH]; intros n a b.
  - destruct n, a, b; reflexivity.
  - destruct n as [| n]; simpl.
    + destruct a as [| a]; simpl.
      * destruct b; reflexivity.
      * f_equal. apply (IH 0).
    + apply IH.
Qed.

Lemma substring_overshoot (s : string) (n m : nat) :
  String.length s - n <= m -> substring n m s = substring n (String.length s - n) s.
Proof.
  revert n m. induction s as [| c s IH]; intros n m Hm.
  - destruct n, m; reflexivity.
  - destruct n as [| n]; simpl in *.
    + destruct m as [| m]; [lia |]. f_equal.
      rewrite (IH 0 m) by lia. now rewrite Nat.sub_0_r.
    + apply IH. lia.
Qed.

Lemma substring_whole (s : string) : substring 0 (String.length s) s = s.
Proof.
  induction s as [| c s IH]; simpl; [reflexivity | now rewrite IH].
Qed.

Lemma slice_then_rest (s : string) (i : nat) :
  i < String.length s ->
  (slice s i (i + chunkSize)
   ++ substring (i + chunkSize) (String.length s - (i + chunkSize)) s)%string
  = substring i (String.length s - i) s.
Proof.
  intros Hi. unfold slice.
  replace (i + chunkSize - i) with chunkSize by lia.
  rewrite substring_append.
  apply substring_overshoot. unfold chunkSize. lia.
Qed.

Lemma ceil_div_step (r : nat) :
  0 < r -> ceil_div r chunkSize = S (ceil_div (r - chunkSize) chunkSize).
Proof.
  unfold ceil_div, chunkSize. intros Hr.
  destruct r as [| [| r]]; [lia | reflexivity |].
  replace (S (S r) + 2 - 1) with ((r + 1) + 1 * 2) by lia.
  rewrite Nat.div_add by lia.
  replace (S (S r) - 2 + 2 - 1) with (r + 1) by lia. lia.
Qed.

(* ------------------------------------------------------------------ *)
(** * The stream task                                                  *)
(* ------------------------------------------------------------------ *)

Section StreamFacts.

Variable env : Env.
Variables (text : string) (model : value) (requestId : string).

Lemma streamLoop_step (i : nat) :
  i < String.length text ->
  streamLoop env text model requestId i =
  (created <- epoch_seconds env ;;
   writer_write env (SseJson (contentChunk requestId created model
                                (slice text i (i + chunkSize)))) ;;;
   sleep STREAM_DELAY ;;;
   streamLoop env text model requestId (i + chunkSize)).
Proof.
  intros Hlt. rewrite streamLoop_equation_1.
  destruct (lt_dec i (String.length text)) as [Hlt' | Hge]; [| contradiction].
  rewrite streamLoop_clause_1_equation_1. reflexivity.
Qed.

Lemma streamLoop_exit (i : nat) :
  ~ i < String.length text ->
  streamLoop env text model requestId i = ret tt.
Proof.
  intros Hge. rewrite streamLoop_equation_1.
  destruct (lt_dec i (String.length text)) as [Hlt | Hge']; [contradiction |].
  reflexivity.
Qed.

Lemma contentChunk_content_bearing (created : Z) (content : string) :
  content_bearing (contentChunk requestId created model content) content.
Proof. repeat split. Qed.

Lemma endChunk_terminal (created : Z) :
  terminal (endChunk requestId created model).
Proof. repeat split. Qed.

Lemma streamTask_attempt (w : World) :
  streamTask env text model requestId w
  = try_finally (streamAttempt env text model requestId) (writer_close env) w.
Proof. reflexivity. Qed.

(** The [finally] changes neither what was written nor what was logged. *)
Lemma close_keeps (m : M unit) (w : World) :
  sink (snd (try_finally m (writer_close env) w)) = sink (snd (m w)) /\
  console (snd (try_finally m (writer_close env) w)) = console (snd (m w)) /\
  clock_reads (snd (try_finally m (writer_close env) w)) = clock_reads (snd (m w)).
Proof.
  unfold try_finally, writer_close.
  destruct (m w) as [r w1]. cbn [snd].
  destruct (write_outcome env (List.length (sink w1))); repeat split.
Qed.

(** The [finally] goes through while the stream is not errored, and
    rejects once it is. *)
Lemma close_result (m : M unit) (w : World) :
  (forall u, write_outcome env (List.length (sink (snd (m w)))) = Ok u ->
     fst (try_finally m (writer_close env) w) = fst (m w) /\
     closed (snd (try_finally m (writer_close env) w)) = true) /\
  (forall e, write_outcome env (List.length (sink (snd (m w)))) = Throw e ->
     fst (try_finally m (writer_close env) w) = Throw (TypeError StreamErrored) /\
     closed (snd (try_finally m (writer_close env) w)) = closed (snd (m w))).
Proof.
  unfold try_finally, writer_close.
  destruct (m w) as [r w1]. cbn [snd fst].
  split; intros x Hx; rewrite Hx; split; reflexivity.
Qed.

(** With the client connected, the loop started at [i] emits the
    content-bearing chunks of the rest of the text, one clock reading each. *)
Lemma streamLoop_connected :
  connected env ->
  forall (n i : nat) (w : World),
    String.length text - i <= n ->
    exists (chunks : list value) (contents : list string),
      streamLoop env text model requestId i w =
        (Ok tt,
         {| clock_reads := clock_reads w + List.length chunks;
            uuid_draws := uuid_draws w; outbound := outbound w;
            console := console w;
            sink := (sink w ++ map SseJson chunks)%list;
            closed := closed w |}) /\
      Forall2 content_bearing chunks contents /\
      concatenation contents = substring i (String.length text - i) text /\
      List.length chunks = ceil_div (String.length text - i) chunkSize.
Proof.
  intros Hconn. induction n as [| n IH]; intros i w Hn.
  - exists [], []. rewrite streamLoop_exit by lia.
    replace (String.length text - i) with 0 by lia.
    rewrite substring_zero_length. simpl.
    rewrite Nat.add_0_r, app_nil_r. destruct w; repeat split; constructor.
  - destruct (lt_dec i (String.length text)) as [Hlt | Hge].
    + rewrite streamLoop_step by assumption.
      destruct (IH (i + chunkSize)
                  {| clock_reads := S (clock_reads w); uuid_draws := uuid_draws w;
                     outbound := outbound w; console := console w;
                     sink := (sink w ++ [SseJson
                               (contentChunk requestId
                                  (Date_now env (clock_reads w) / 1000) model
                                  (slice text i (i + chunkSize)))])%list;
                     closed := closed w |})
        as (chunks & contents & Hrun & Hcb & Hcat & Hlen); [unfold chunkSize; lia |].
      exists (contentChunk requestId (Date_now env (clock_reads w) / 1000) model
                (slice text i (i + chunkSize)) :: chunks),
             (slice text i (i + chunkSize) :: contents).
      split; [| split; [| split]].
      * unfold bind, epoch_seconds, date_now, ret, sleep, writer_write.
        cbn -[streamLoop Z.div slice contentChunk ceil_div].
        rewrite Hconn, Hrun.
        cbn [clock_reads uuid_draws outbound console sink closed].
        f_equal. f_equal.
        -- simpl. lia.
        -- rewrite <- app_assoc. reflexivity.
      * constructor; [apply contentChunk_content_bearing | exact Hcb].
      * cbn [concatenation fold_right]. fold (concatenation contents).
        rewrite Hcat. apply slice_then_rest. exact Hlt.
      * cbn [List.length]. rewrite Hlen.
        rewrite (ceil_div_step (String.length text - i)) by lia.
        f_equal. f_equal. unfold chunkSize. lia.
    + exists [], []. rewrite streamLoop_exit by assumption.
      replace (String.length text - i) with 0 by lia.
      rewrite substring_zero_length. simpl.
      rewrite Nat.add_0_r, app_nil_r. destruct w; repeat split; constructor.
Qed.

Lemma stamped_nil (base : nat) : stamped env requestId model base [].
Proof. intros [| j] payload H; discriminate H. Qed.

Lemma stamped_cons (base : nat) (f : Frame) (rest : list Frame) :
  (forall payload, f = SseJson payload ->
     prop payload "id" = VStr requestId /\ prop payload "model" = model /\
     prop payload "created" = VNum (Date_now env base / 1000)) ->
  stamped env requestId model (S base) rest ->
  stamped env requestId model base (f :: rest).
Proof.
  intros Hf Hrest [| j] payload H; simpl in H.
  - injection H as ->. rewrite Nat.add_0_r. now apply Hf.
  - replace (base + S j) with (S base + j) by lia. now apply Hrest.
Qed.

Lemma stamped_app (base : nat) (new extra : list Frame) :
  stamped env requestId model base new ->
  stamped env requestId model (base + List.length new) extra ->
  stamped env requestId model base (new ++ extra).
Proof.
  intros Hnew Hextra j payload H.
  destruct (lt_dec j (List.length new)) as [Hlt | Hge].
  - rewrite nth_error_app1 in H by assumption. now apply Hnew.
  - rewrite nth_error_app2 in H by lia.
    replace (base + j) with (base + List.length new + (j - List.length new)) by lia.
    now apply Hextra.
Qed.

(** Whatever the client does, the loop only appends chunks stamped with the
    request id, the model and the clock reading taken for them. *)
Lemma streamLoop_stamped :
  forall (n i : nat) (w : World),
    String.length text - i <= n ->
    exists new : list Frame,
      sink (snd (streamLoop env text model requestId i w)) = (sink w ++ new)%list /\
      stamped env requestId model (clock_reads w) new /\
      closed (snd (streamLoop env text model requestId i w)) = closed w /\
      (fst (streamLoop env text model requestId i w) = Ok tt ->
       clock_reads (snd (streamLoop env text model requestId i w))
       = clock_reads w + List.length new).
Proof.
  induction n as [| n IH]; intros i w Hn.
  - exists []. rewrite streamLoop_exit by lia. simpl.
    rewrite app_nil_r.
    split; [reflexivity | split; [apply stamped_nil | split; [reflexivity | intros _; lia]]].
  - destruct (lt_dec i (String.length text)) as [Hlt | Hge].
    + rewrite streamLoop_step by assumption.
      unfold bind, epoch_seconds, date_now, ret, sleep, writer_write.
      cbn -[streamLoop Z.div slice contentChunk].
      destruct (write_outcome env (List.length (sink w))) as [[] | e].
      * match goal with
        | |- context [streamLoop env text model requestId (i + chunkSize) ?w1] =>
            destruct (IH (i + chunkSize) w1) as (new & Hsink & Hst & Hcl & Hreads);
            [unfold chunkSize; lia |]
        end.
        cbn [clock_reads sink closed] in Hsink, Hst, Hcl, Hreads.
        eexists. split; [| split; [| split]].
        -- rewrite Hsink, <- app_assoc. reflexivity.
        -- apply stamped_cons; [| exact Hst].
           intros payload [= <-]. repeat split.
        -- exact Hcl.
        -- intros Hok. rewrite (Hreads Hok). simpl. lia.
      * exists []. simpl. rewrite app_nil_r.
        split; [reflexivity | split; [apply stamped_nil | split; [reflexivity | discriminate]]].
    + exists []. rewrite streamLoop_exit by assumption. simpl.
      rewrite app_nil_r.
      split; [reflexivity | split; [apply stamped_nil | split; [reflexivity | intros _; lia]]].
Qed.

(** The task, whatever the client does: it appends stamped chunks (and
    perhaps the [DONE] record). *)
Lemma streamTask_stamped (w : World) :
  exists new : list Frame,
    sink (snd (streamTask env text model requestId w)) = (sink w ++ new)%list /\
    stamped env requestId model (clock_reads w) new.
Proof.
  destruct (streamLoop_stamped (String.length text) 0 w ltac:(lia))
    as (new & Hsink & Hst & Hcl & Hreads).
  rewrite streamTask_attempt.
  rewrite (proj1 (close_keeps (streamAttempt env text model requestId) w)).
  unfold streamAttempt, try_catch.
  unfold bind, epoch_seconds, date_now, ret, writer_write, console_error.
  cbn -[streamLoop Z.div endChunk DONE].
  destruct (streamLoop env text model requestId 0 w) as [[[] | e] w1].
  - cbn [fst snd] in *. specialize (Hreads eq_refl).
    destruct (write_outcome env (List.length (sink w1))) as [[] | e1].
    + cbn -[Z.div endChunk DONE]. rewrite length_app. cbn [List.length].
      destruct (write_outcome env (List.length (sink w1) + 1)) as [[] | e2];
        cbn -[Z.div endChunk DONE]; rewrite Hsink.
      * exists (new ++ [SseJson (endChunk requestId (Date_now env (clock_reads w1) / 1000) model);
                        SseText DONE])%list.
        rewrite <- !app_assoc. split; [reflexivity |].
        apply stamped_app; [exact Hst |].
        apply stamped_cons.
        -- intros payload [= <-]. rewrite Hreads. repeat split.
        -- intros [| j] payload H; [discriminate H | destruct j; discriminate H].
      * exists (new ++ [SseJson (endChunk requestId (Date_now env (clock_reads w1) / 1000) model)])%list.
        rewrite <- !app_assoc. split; [reflexivity |].
        apply stamped_app; [exact Hst |].
        apply stamped_cons; [| apply stamped_nil].
        intros payload [= <-]. rewrite Hreads. repeat split.
    + cbn. exists new. auto.
  - cbn [fst snd] in *. cbn. exists new. auto.
Qed.

(** Only the [finally] closes the writer. *)
Lemma streamAttempt_closed (w : World) :
  closed (snd (streamAttempt env text model requestId w)) = closed w.
Proof.
  destruct (streamLoop_stamped (String.length text) 0 w ltac:(lia))
    as (new & _ & _ & Hcl & _).
  unfold streamAttempt, try_catch.
  unfold bind, epoch_seconds, date_now, ret, writer_write, console_error.
  cbn -[streamLoop Z.div endChunk DONE].
  destruct (streamLoop env text model requestId 0 w) as [[[] | e] w1];
    cbn [fst snd] in *; [| exact Hcl].
  destruct (write_outcome env (List.length (sink w1))) as [[] | e1];
    cbn -[Z.div endChunk DONE]; [| exact Hcl].
  rewrite length_app. cbn [List.length].
  destruct (write_outcome env (List.length (sink w1) + 1)) as [[] | e2];
    cbn -[Z.div endChunk DONE]; exact Hcl.
Qed.

(** The [catch] takes every failed write: the attempt returns. *)
Lemma streamAttempt_returns (w : World) :
  fst (streamAttempt env text model requestId w) = Ok tt.
Proof.
  unfold streamAttempt, try_catch.
  unfold bind, epoch_seconds, date_now, ret, writer_write, console_error.
  cbn -[streamLoop Z.div endChunk DONE].
  destruct (streamLoop env text model requestId 0 w) as [[[] | e] w1];
    cbn [fst snd]; [| reflexivity].
  destruct (write_outcome env (List.length (sink w1))) as [[] | e1];
    cbn -[Z.div endChunk DONE]; [| reflexivity].
  rewrite length_app. cbn [List.length].
  destruct (write_outcome env (List.length (sink w1) + 1)) as [[] | e2];
    cbn -[Z.div endChunk DONE]; reflexivity.
Qed.

(** With the client connected the task emits the complete stream. *)
Lemma streamTask_connected (w : World) :
  connected env ->
  exists new : list Frame,
    streamTask env text model requestId w =
      (Ok tt,
       {| clock_reads := clock_reads w + List.length new - 1;
          uuid_draws := uuid_draws w; outbound := outbound w;
          console := console w;
          sink := (sink w ++ new)%list;
          closed := true |}) /\
    complete_stream text new.
Proof.
  intros Hconn.
  destruct (streamLoop_connected Hconn (String.length text) 0 w ltac:(lia))
    as (chunks & contents & Hrun & Hcb & Hcat & Hlen).
  rewrite Nat.sub_0_r, substring_whole in Hcat. rewrite Nat.sub_0_r in Hlen.
  exists (map SseJson chunks ++
          [SseJson (endChunk requestId
                      (Date_now env (clock_reads w + List.length chunks) / 1000) model);
           SseText DONE])%list.
  split.
  - unfold streamTask, try_finally, try_catch.
    unfold bind, epoch_seconds, date_now, ret, writer_write, writer_close.
    cbn -[streamLoop Z.div endChunk DONE]. rewrite Hrun.
    repeat (cbn -[Z.div endChunk DONE]; rewrite ?Hconn).
    f_equal. f_equal.
    + rewrite length_app, length_map. simpl. lia.
    + rewrite <- !app_assoc. reflexivity.
  - exists chunks, contents, (endChunk requestId
                      (Date_now env (clock_reads w + List.length chunks) / 1000) model).
    repeat split; auto.
Qed.

End StreamFacts.

Section StreamPrefix.

Variable env : Env.
Variables (text : string) (model : value) (requestId : string).

(** Whatever the client does, the loop started at [i] writes some first
    chunks of the rest of the text, all of them when it returns. *)
Lemma streamLoop_prefix :
  forall (n i : nat) (w : World),
    String.length text - i <= n ->
    exists (chunks : list value) (contents : list string) (k : nat),
      Forall2 content_bearing chunks contents /\
      concatenation contents = substring i (String.length text - i) text /\
      List.length chunks = ceil_div (String.length text - i) chunkSize /\
      k <= List.length chunks /\
      sink (snd (streamLoop env text model requestId i w))
      = (sink w ++ map SseJson (firstn k chunks))%list /\
      (fst (streamLoop env text model requestId i w) = Ok tt -> k = List.length chunks).
Proof.
  induction n as [| n IH]; intros i w Hn.
  - exists [], [], 0. rewrite streamLoop_exit by lia.
    replace (String.length text - i) with 0 by lia.
    rewrite substring_zero_length. cbn -[ceil_div]. rewrite app_nil_r.
    split; [constructor |]. repeat split; auto.
  - destruct (lt_dec i (String.length text)) as [Hlt | Hge].
    + rewrite streamLoop_step by assumption.
      unfold bind, epoch_seconds, date_now, ret, sleep, writer_write.
      cbn -[streamLoop Z.div slice contentChunk ceil_div firstn].
      set (c := contentChunk requestId (Date_now env (clock_reads w) / 1000) model
                  (slice text i (i + chunkSize))).
      assert (Hcat : forall contents,
                concatenation contents
                = substring (i + chunkSize) (String.length text - (i + chunkSize)) text ->
                concatenation (slice text i (i + chunkSize) :: contents)
                = substring i (String.length text - i) text).
      { intros contents H. cbn [concatenation fold_right]. fold (concatenation contents).
        rewrite H. now apply slice_then_rest. }
      assert (Hceil : forall chunks : list value,
                List.length chunks
                = ceil_div (String.length text - (i + chunkSize)) chunkSize ->
                List.length (c :: chunks) = ceil_div (String.length text - i) chunkSize).
      { intros chunks H. cbn [List.length]. rewrite H.
        rewrite (ceil_div_step (String.length text - i)) by lia.
        f_equal. f_equal. unfold chunkSize. lia. }
      destruct (write_outcome env (List.length (sink w))) as [[] | e].
      * match goal with
        | |- context [streamLoop env text model requestId (i + chunkSize) ?w1] =>
            destruct (IH (i + chunkSize) w1)
              as (chunks & contents & k & Hcb & Hrest & Hlen & Hk & Hsink & Hall);
            [unfold chunkSize; lia |]
        end.
        cbn [sink] in Hsink.
        exists (c :: chunks), (slice text i (i + chunkSize) :: contents), (S k).
        split; [constructor; [apply contentChunk_content_bearing | exact Hcb] |].
        split; [now apply Hcat |]. split; [now apply Hceil |].
        split; [cbn [List.length]; lia |].
        split; [rewrite Hsink, <- app_assoc; reflexivity |].
        intros Hok. cbn [List.length]. f_equal. now apply Hall.
      * destruct (IH (i + chunkSize) w)
          as (chunks & contents & _ & Hcb & Hrest & Hlen & _);
          [unfold chunkSize; lia |].
        exists (c :: chunks), (slice text i (i + chunkSize) :: contents), 0.
        split; [constructor; [apply contentChunk_content_bearing | exact Hcb] |].
        split; [now apply Hcat |]. split; [now apply Hceil |].
        split; [lia |]. cbn. rewrite app_nil_r.
        split; [reflexivity | discriminate].
    + exists [], [], 0. rewrite streamLoop_exit by assumption.
      replace (String.length text - i) with 0 by lia.
      rewrite substring_zero_length. cbn -[ceil_div]. rewrite app_nil_r.
      split; [constructor |]. repeat split; auto.
Qed.

(** Whatever the client does, the task has written the first frames of a
    complete stream. *)
Lemma streamTask_prefix (w : World) :
  exists (full : list Frame) (k : nat),
    complete_stream text full /\
    sink (snd (streamTask env text model requestId w)) = (sink w ++ firstn k full)%list.
Proof.
  destruct (streamLoop_prefix (String.length text) 0 w ltac:(lia))
    as (chunks & contents & k & Hcb & Hcat & Hlen & Hk & Hsink & Hall).
  rewrite Nat.sub_0_r, substring_whole in Hcat. rewrite Nat.sub_0_r in Hlen.
  rewrite streamTask_attempt.
  rewrite (proj1 (close_keeps env (streamAttempt env text model requestId) w)).
  unfold streamAttempt, try_catch.
  unfold bind, epoch_seconds, date_now, ret, writer_write, console_error.
  cbn -[streamLoop Z.div endChunk DONE firstn].
  destruct (streamLoop env text model requestId 0 w) as [[[] | e] w1].
  - cbn [fst snd] in *. specialize (Hall eq_refl). subst k.
    rewrite firstn_all in Hsink.
    set (last := endChunk requestId (Date_now env (clock_reads w1) / 1000) model).
    assert (Hfull : complete_stream text (map SseJson chunks ++ [SseJson last; SseText DONE])).
    { exists chunks, contents, last. repeat split; auto. }
    destruct (write_outcome env (List.length (sink w1))) as [[] | e1].
    + cbn -[Z.div endChunk DONE firstn]. rewrite length_app. cbn [List.length].
      destruct (write_outcome env (List.length (sink w1) + 1)) as [[] | e2];
        cbn -[Z.div endChunk DONE firstn].
      * exists (map SseJson chunks ++ [SseJson last; SseText DONE])%list,
               (List.length chunks + 2).
        split; [exact Hfull |].
        rewrite firstn_all2 by (rewrite length_app, length_map; simpl; lia).
        rewrite Hsink, <- !app_assoc. reflexivity.
      * exists (map SseJson chunks ++ [SseJson last; SseText DONE])%list,
               (List.length (map SseJson chunks) + 1).
        split; [exact Hfull |].
        rewrite firstn_app_2. cbn [firstn].
        rewrite Hsink, <- !app_assoc. reflexivity.
    + cbn -[Z.div endChunk DONE firstn].
      exists (map SseJson chunks ++ [SseJson last; SseText DONE])%list,
             (List.length (map SseJson chunks) + 0).
      split; [exact Hfull |].
      rewrite firstn_app_2. cbn [firstn]. rewrite app_nil_r. exact Hsink.
  - cbn [fst snd] in *. cbn -[firstn].
    exists (map SseJson chunks ++ [SseJson (endChunk requestId 0 model); SseText DONE])%list, k.
    split.
    + exists chunks, contents, (endChunk requestId 0 model). repeat split; auto.
    + rewrite Hsink. f_equal.
      rewrite firstn_app, length_map.
      replace (k - List.length chunks) with 0 by lia.
      cbn [firstn]. rewrite app_nil_r. symmetry. apply firstn_map.
Qed.

End StreamPrefix.

(* ------------------------------------------------------------------ *)
(** * Locating the user message                                         *)
(* ------------------------------------------------------------------ *)

Lemma is_user_message (m : Message) :
  is_user (message_value m) = Ok (role m =? "user").
Proof. reflexivity. Qed.

Lemma Array_find_first (pre post : list value) (m : value) :
  Forall (fun x => is_user x = Ok false) pre ->
  is_user m = Ok true ->
  Array_find is_user (pre ++ m :: post) = Ok m.
Proof.
  intros Hpre Hm. induction Hpre as [| x pre Hx _ IH]; simpl.
  - now rewrite Hm.
  - now rewrite Hx.
Qed.

Lemma Array_find_nothing (items : list value) :
  Forall (fun x => is_user x = Ok false) items ->
  Array_find is_user items = Ok VUndefined.
Proof.
  induction 1 as [| x items Hx _ IH]; simpl; [reflexivity | now rewrite Hx].
Qed.

Lemma not_user_values (ms : list Message) :
  Forall (fun x => role x <> "user") ms ->
  Forall (fun v => is_user v = Ok false) (map message_value ms).
Proof.
  induction 1 as [| m ms Hm _ IH]; simpl; constructor; [| exact IH].
  rewrite is_user_message. f_equal. now apply String.eqb_neq.
Qed.

(** Scanning from the end finds the most recent user message. *)
Lemma find_last_user_found (ms : list Message) (m : Message) :
  last_user_message ms m ->
  find_last_user (VArr (map message_value ms)) = Ok (message_value m).
Proof.
  intros (before & after & -> & Hrole & Hafter).
  unfold find_last_user. cbn [Array_reverse rbind].
  rewrite map_app, rev_app_distr. cbn [map rev]. rewrite <- app_assoc.
  cbn [app]. apply Array_find_first.
  - rewrite <- map_rev. apply not_user_values. now apply Forall_rev.
  - rewrite is_user_message. f_equal. now apply String.eqb_eq.
Qed.

Lemma find_last_user_missing (ms : list Message) :
  Forall (fun x => role x <> "user") ms ->
  find_last_user (VArr (map message_value ms)) = Ok VUndefined.
Proof.
  intros Hnone. unfold find_last_user. cbn [Array_reverse rbind].
  apply Array_find_nothing. rewrite <- map_rev.
  apply not_user_values. now apply Forall_rev.
Qed.

(* ------------------------------------------------------------------ *)
(** * The chat handler                                                  *)
(* ------------------------------------------------------------------ *)

Section HandlerFacts.

Variable rt : Runtime.
Variable env : Env.

(** A body with a user message goes on to the upstream call. *)
Lemma chatCompletions_try_forward (request : Request) (requestId : string)
    (props : list (string * value)) (ms : list Message) (m : Message) (w : World) :
  chat_body request props ms ->
  last_user_message ms m ->
  chatCompletions_try rt env request requestId w =
  chatCompletions_forward rt env (VObj props) (message_value m) requestId w.
Proof.
  intros [Hjson Hmsgs] Hlast.
  unfold chatCompletions_try, bind at 1, lift at 1. rewrite Hjson.
  unfold bind at 1, lift at 1. cbn [member field_name]. rewrite Hmsgs.
  unfold bind at 1, lift at 1.
  cbn [js_or truthy]. rewrite (find_last_user_found ms m Hlast).
  reflexivity.
Qed.

(** A body without a user message is answered at once. *)
Lemma chatCompletions_try_no_user (request : Request) (requestId : string)
    (props : list (string * value)) (ms : list Message) (w : World) :
  request_json request = Ok (VObj props) ->
  truthy (lookup props "messages") = false \/
  (lookup props "messages" = VArr (map message_value ms) /\
   Forall (fun x => role x <> "user") ms) ->
  chatCompletions_try rt env request requestId w = (Ok invalid_request, w).
Proof.
  intros Hjson Hmsgs.
  unfold chatCompletions_try, bind at 1, lift at 1. rewrite Hjson.
  unfold bind at 1, lift at 1. cbn [member field_name].
  unfold bind at 1, lift at 1.
  destruct Hmsgs as [Hfalsy | [Hmsgs Hnone]].
  - unfold js_or. rewrite Hfalsy. reflexivity.
  - rewrite Hmsgs. cbn [js_or truthy].
    rewrite (find_last_user_missing ms Hnone). reflexivity.
Qed.

End HandlerFacts.

(* ------------------------------------------------------------------ *)
(** * The upstream exchange                                             *)
(* ------------------------------------------------------------------ *)

Section ForwardFacts.

Variable rt : Runtime.
Variable env : Env.

(** Where the model converts to a property key, the forwarding step makes
    exactly one call and hands the response on. *)
Lemma forward_run (props : list (string * value)) (m : Message)
    (requestId : string) (w : World) :
  unconvertible (chosenModel props) = false ->
  chatCompletions_forward rt env (VObj props) (message_value m) requestId w =
  match upstream env (upstreamCall rt env props m w) with
  | Ok response =>
      chatCompletions_answer rt env (VObj props) (chosenModel props) response
        requestId (called (upstreamCall rt env props m w) w)
  | Throw e => (Throw e, called (upstreamCall rt env props m w) w)
  end.
Proof.
  intros Hkey.
  unfold chatCompletions_forward, bind at 1, lift at 1. cbn [member message_value lookup].
  unfold bind at 1, lift at 1. cbn [member field_name].
  fold (chosenModel props).
  unfold bind at 1, lift at 1, ToPropertyKey. rewrite Hkey.
  reflexivity.
Qed.

(** A model that cannot be converted to a property key stops the request
    before any call. *)
Lemma forward_unconvertible (props : list (string * value)) (m : Message)
    (requestId : string) (w : World) :
  unconvertible (chosenModel props) = true ->
  chatCompletions_forward rt env (VObj props) (message_value m) requestId w
  = (Throw (TypeError NotPrimitive), w).
Proof.
  intros Hkey.
  unfold chatCompletions_forward, bind at 1, lift at 1. cbn [member message_value lookup].
  unfold bind at 1, lift at 1. cbn [member field_name].
  fold (chosenModel props).
  unfold bind at 1, lift at 1, ToPropertyKey. rewrite Hkey.
  reflexivity.
Qed.

(** An absent model, and a model that is a string, convert. *)
Lemma chosenModel_string (props : list (string * value)) :
  truthy (lookup props "model") = false \/ (exists M, lookup props "model" = VStr M) ->
  unconvertible (chosenModel props) = false.
Proof.
  unfold chosenModel, js_or. intros [Habsent | [M HM]].
  - now rewrite Habsent.
  - rewrite HM. now destruct (truthy (VStr M)).
Qed.

Variables (body model : value) (response : UpstreamResponse) (requestId : string).
Variable w : World.







Lemma answer_accepted (data success text : value) :
  ok response = true -> up_json response = Ok data ->
  member data f_success = Ok success -> truthy success = true ->
  member data f_data = Ok text -> truthy text = true ->
  forall stream, member body f_stream = Ok stream ->
  chatCompletions_answer rt env body model response requestId w =
  if truthy stream then handleStreamResponse text model requestId w
  else handleNormalResponse env text model requestId w.
Proof.
  intros Hok Hdata Hs Hts Hd Htd stream Hstream.
  unfold chatCompletions_answer. rewrite Hok. cbn [negb].
  unfold bind at 1, lift at 1. rewrite Hdata.
  unfold bind at 1, lift at 1. rewrite Hs.
  unfold bind at 1. rewrite Hts. cbn [negb].
  unfold bind at 1, lift at 1. rewrite Hd.
  unfold ret at 1. rewrite Htd. cbn [negb].
  unfold bind at 1, lift at 1.
  unfold bind at 1, lift at 1. rewrite Hstream.
  destruct (truthy stream); reflexivity.
Qed.

End ForwardFacts.

(* ------------------------------------------------------------------ *)
(** * The non-streaming response                                        *)
(* ------------------------------------------------------------------ *)

(** C7.  For every text [T], the empty string included, the non-streaming
    response built from [T] is a "chat.completion" object with exactly one
    choice, whose index is 0, whose message has role "assistant" and
    content [T], whose finish_reason is "stop", and with zeroed usage
    counters. *)
Theorem normal_response_content (env : Env) (T : string) (model : value)
    (requestId : string) (w : World) :
  exists (response : Response) (completion choice : value) (w' : World),
    handleNormalResponse env (VStr T) model requestId w = (Ok response, w') /\
    body response = BodyJson completion /\
    prop completion "object" = VStr "chat.completion" /\
    prop completion "choices" = VArr [choice] /\
    prop choice "index" = VNum 0 /\
    prop (prop choice "message") "role" = VStr "assistant" /\
    prop (prop choice "message") "content" = VStr T /\
    prop choice "finish_reason" = VStr "stop" /\
    prop completion "usage" = VObj [("prompt_tokens", VNum 0);
                                    ("completion_tokens", VNum 0);
                                    ("total_tokens", VNum 0)].
Proof.
  unfold handleNormalResponse, bind, epoch_seconds, date_now, ret.
  do 4 eexists. split; [reflexivity |]. repeat split.
Qed.

Example normal_response_empty_text :
  exists (response : Response) (w' : World),
    handleNormalResponse steady_env (VStr EmptyString) (VStr DEFAULT_MODEL) "req-1" fresh
    = (Ok response, w') /\
    body response =
      BodyJson (ChatCompletion "req-1" 1700000000 (VStr DEFAULT_MODEL) (VStr EmptyString)).
Proof. do 2 eexists. split; reflexivity. Qed.

(** The response in full: it is built from the arguments and from one
    reading of the clock. *)
Lemma handleNormalResponse_run (env : Env) (text model : value)
    (requestId : string) (w : World) :
  handleNormalResponse env text model requestId w =
  (Ok {| status := 200;
         headers := corsHeaders [("Content-Type", "application/json")];
         body := BodyJson (ChatCompletion requestId
                             (Date_now env (clock_reads w) / 1000) model text) |},
   {| clock_reads := S (clock_reads w); uuid_draws := uuid_draws w;
      outbound := outbound w; console := console w;
      sink := sink w; closed := closed w |}).
Proof. reflexivity. Qed.

(** C6, as the code has it.  Building the non-streaming ChatCompletion
    always succeeds, and the object is a function of text, model, requestId
    and the second read from the clock: two invocations with the same text,
    model and requestId that read the same second produce identical
    responses. *)
Theorem normal_response_deterministic (text model : value) (requestId : string) :
  (forall (env : Env) (w : World),
     exists (response : Response) (w' : World),
       handleNormalResponse env text model requestId w = (Ok response, w') /\
       body response = BodyJson (ChatCompletion requestId
                                   (Date_now env (clock_reads w) / 1000) model text)) /\
  (forall (env1 env2 : Env) (w1 w2 : World),
     (Date_now env1 (clock_reads w1) / 1000 = Date_now env2 (clock_reads w2) / 1000)%Z ->
     fst (handleNormalResponse env1 text model requestId w1)
     = fst (handleNormalResponse env2 text model requestId w2)).
Proof.
  split.
  - intros env w. rewrite handleNormalResponse_run. do 2 eexists. split; reflexivity.
  - intros env1 env2 w1 w2 Hsec. rewrite !handleNormalResponse_run.
    cbn [fst]. now rewrite Hsec.
Qed.

Lemma normal_response_deterministic_witness :
  (Date_now steady_env (clock_reads fresh) / 1000
   = Date_now steady_env (clock_reads (snd (handleNormalResponse steady_env
        (VStr "Hi there") (VStr DEFAULT_MODEL) "req-1" fresh))) / 1000)%Z /\
  fst (handleNormalResponse steady_env (VStr "Hi there") (VStr DEFAULT_MODEL) "req-1" fresh)
  = fst (handleNormalResponse steady_env (VStr "Hi there") (VStr DEFAULT_MODEL) "req-1"
           (snd (handleNormalResponse steady_env (VStr "Hi there") (VStr DEFAULT_MODEL)
                   "req-1" fresh))).
Proof.
  split; [reflexivity |].
  apply (proj2 (normal_response_deterministic (VStr "Hi there") (VStr DEFAULT_MODEL) "req-1")).
  reflexivity.
Defined.

(** C6, as claimed, fails: two invocations with the same text, model and
    requestId, one second apart, produce different objects. *)
Lemma normal_response_depends_on_clock :
  fst (handleNormalResponse ticking_env (VStr "Hi there") (VStr DEFAULT_MODEL) "req-1" fresh)
  <> fst (handleNormalResponse ticking_env (VStr "Hi there") (VStr DEFAULT_MODEL) "req-1"
            (snd (handleNormalResponse ticking_env (VStr "Hi there") (VStr DEFAULT_MODEL)
                    "req-1" fresh))).
Proof.
  rewrite !handleNormalResponse_run. cbn [fst snd clock_reads].
  intros H. injection H as H. vm_compute in H. discriminate H.
Qed.

(* ------------------------------------------------------------------ *)
(** * The streaming response                                            *)
(* ------------------------------------------------------------------ *)

(** C1, as the code has it.  Provided the client stays connected (every
    write is accepted and the writer closes), the task of a streaming
    response for the text [T] returns, closes the writer, and has written
    the complete stream for [T]: content-bearing chunks whose delta.content
    values spell [T] in order, [ceil (length T / 2)] of them, then one
    terminal chunk with an empty delta and finish_reason "stop", then the
    record [data: [DONE]\n\n]. *)
Theorem stream_complete_when_connected (env : Env) (T : string) (model : value)
    (requestId : string) (w : World) :
  sink w = [] ->
  connected env ->
  fst (streamTask env T model requestId w) = Ok tt /\
  closed (snd (streamTask env T model requestId w)) = true /\
  complete_stream T (sink (snd (streamTask env T model requestId w))).
Proof.
  intros Hempty Hconn.
  destruct (streamTask_connected env T model requestId w Hconn) as (new & Hrun & Hnew).
  rewrite Hrun. cbn [fst snd sink closed]. rewrite Hempty.
  split; [reflexivity | split; [reflexivity | exact Hnew]].
Qed.

Lemma stream_complete_when_connected_witness :
  sink fresh = [] /\
  connected steady_env /\
  fst (streamTask steady_env "Hi there" (VStr DEFAULT_MODEL) "req-1" fresh) = Ok tt /\
  closed (snd (streamTask steady_env "Hi there" (VStr DEFAULT_MODEL) "req-1" fresh)) = true /\
  complete_stream "Hi there"
    (sink (snd (streamTask steady_env "Hi there" (VStr DEFAULT_MODEL) "req-1" fresh))).
Proof.
  assert (Hconn : connected steady_env) by (intros k; reflexivity).
  split; [reflexivity | split; [exact Hconn |]].
  exact (stream_complete_when_connected steady_env "Hi there" (VStr DEFAULT_MODEL)
           "req-1" fresh eq_refl Hconn).
Defined.

(** The sentinel on the wire. *)
Lemma DONE_record (rt : Runtime) :
  frame_text rt (SseText DONE) = "data: [DONE]" ++ LF ++ LF.
Proof. reflexivity. Qed.

(** The example of the specification: "Hi there" goes out as "Hi", " t",
    "he", "re", a stop chunk and [DONE]. *)
Example stream_hi_there :
  sink (snd (streamTask steady_env "Hi there" (VStr DEFAULT_MODEL) "req-1" fresh)) =
  [ SseJson (contentChunk "req-1" 1700000000 (VStr DEFAULT_MODEL) "Hi");
    SseJson (contentChunk "req-1" 1700000000 (VStr DEFAULT_MODEL) " t");
    SseJson (contentChunk "req-1" 1700000000 (VStr DEFAULT_MODEL) "he");
    SseJson (contentChunk "req-1" 1700000000 (VStr DEFAULT_MODEL) "re");
    SseJson (endChunk "req-1" 1700000000 (VStr DEFAULT_MODEL));
    SseText DONE ].
Proof. vm_compute. reflexivity. Qed.

(** C1, as claimed, fails: when the client has gone away, the stream for
    "Hi" carries no chunk, no terminal chunk and no [DONE] record. *)
Lemma stream_truncated_when_disconnected :
  sink (snd (streamTask disconnected_env "Hi" (VStr DEFAULT_MODEL) "req-1" fresh)) = [] /\
  ~ complete_stream "Hi"
      (sink (snd (streamTask disconnected_env "Hi" (VStr DEFAULT_MODEL) "req-1" fresh))).
Proof.
  assert (Hsink : sink (snd (streamTask disconnected_env "Hi" (VStr DEFAULT_MODEL)
                               "req-1" fresh)) = []) by (vm_compute; reflexivity).
  split; [exact Hsink |].
  rewrite Hsink. intros (chunks & contents & last & Hframes & _).
  destruct chunks; discriminate Hframes.
Qed.

(** C2, as the code has it.  Whatever the client does, every chunk written
    for a response, the terminal one included, carries the request id, fixed
    before the first chunk, and the model; its created timestamp is read
    from the clock when that chunk is built: the [j]-th chunk carries the
    second of the [j]-th reading.  So the chunks of a response agree on
    created when those readings fall within one second. *)
Theorem stream_chunks_stamped (env : Env) (T : string) (model : value)
    (requestId : string) (w : World) :
  exists new : list Frame,
    sink (snd (streamTask env T model requestId w)) = (sink w ++ new)%list /\
    stamped env requestId model (clock_reads w) new /\
    (forall payload : value,
       In (SseJson payload) new -> prop payload "id" = VStr requestId) /\
    (forall s : Z,
       (forall j : nat, j < List.length new ->
          (Date_now env (clock_reads w + j) / 1000)%Z = s) ->
       forall payload : value,
         In (SseJson payload) new -> prop payload "created" = VNum s).
Proof.
  destruct (streamTask_stamped env T model requestId w) as (new & Hsink & Hst).
  exists new. split; [exact Hsink | split; [exact Hst | split]].
  - intros payload Hin. apply In_nth_error in Hin as [j Hj].
    now destruct (Hst j payload Hj).
  - intros s Hsec payload Hin. apply In_nth_error in Hin as [j Hj].
    destruct (Hst j payload Hj) as (_ & _ & Hcreated).
    rewrite Hcreated, Hsec; [reflexivity |].
    apply nth_error_Some. rewrite Hj. discriminate.
Qed.

Lemma stream_chunks_stamped_witness :
  exists new : list Frame,
    sink (snd (streamTask steady_env "Hi there" (VStr DEFAULT_MODEL) "req-1" fresh)) = new /\
    (forall j : nat, j < List.length new ->
       (Date_now steady_env (clock_reads fresh + j) / 1000)%Z = 1700000000%Z) /\
    (forall payload : value,
       In (SseJson payload) new -> prop payload "created" = VNum 1700000000).
Proof.
  destruct (stream_chunks_stamped steady_env "Hi there" (VStr DEFAULT_MODEL) "req-1" fresh)
    as (new & Hsink & _ & _ & Hsame).
  exists new. cbn [sink fresh app] in Hsink.
  assert (Hlen : List.length new = 6).
  { rewrite <- Hsink. vm_compute. reflexivity. }
  assert (Hsec : forall j : nat, j < List.length new ->
            (Date_now steady_env (clock_reads fresh + j) / 1000)%Z = 1700000000%Z).
  { rewrite Hlen. intros j Hj. cbn [Date_now steady_env clock_reads fresh Nat.add].
    symmetry. apply Z.div_unique with (r := Z.of_nat j); lia. }
  split; [exact Hsink | split; [exact Hsec | exact (Hsame _ Hsec)]].
Defined.

(** C2, as claimed, fails: with the clock read at 995 ms and 1005 ms the
    two content chunks of "abcd" carry the created timestamps 0 and 1. *)
Lemma stream_created_changes :
  sink (snd (streamTask ticking_env "abcd" (VStr DEFAULT_MODEL) "req-1" fresh)) =
  [ SseJson (contentChunk "req-1" 0 (VStr DEFAULT_MODEL) "ab");
    SseJson (contentChunk "req-1" 1 (VStr DEFAULT_MODEL) "cd");
    SseJson (endChunk "req-1" 1 (VStr DEFAULT_MODEL));
    SseText DONE ] /\
  ~ same_id_and_created
      (sink (snd (streamTask ticking_env "abcd" (VStr DEFAULT_MODEL) "req-1" fresh))).
Proof.
  assert (Hsink : sink (snd (streamTask ticking_env "abcd" (VStr DEFAULT_MODEL)
                               "req-1" fresh)) =
                  [ SseJson (contentChunk "req-1" 0 (VStr DEFAULT_MODEL) "ab");
                    SseJson (contentChunk "req-1" 1 (VStr DEFAULT_MODEL) "cd");
                    SseJson (endChunk "req-1" 1 (VStr DEFAULT_MODEL));
                    SseText DONE ]) by (vm_compute; reflexivity).
  split; [exact Hsink |].
  rewrite Hsink. intros (id & created & Hall).
  destruct (Hall (contentChunk "req-1" 0 (VStr DEFAULT_MODEL) "ab")) as [_ H0];
    [left; reflexivity |].
  destruct (Hall (contentChunk "req-1" 1 (VStr DEFAULT_MODEL) "cd")) as [_ H1];
    [right; left; reflexivity |].
  rewrite <- H1 in H0. discriminate H0.
Qed.

(* ------------------------------------------------------------------ *)
(** * The request-handling boundary                                     *)
(* ------------------------------------------------------------------ *)

Section BoundaryFacts.

Variable rt : Runtime.
Variable env : Env.

Lemma handleChatCompletions_returns (request : Request) (requestId : string)
    (w w' : World) (response : Response) :
  chatCompletions_try rt env request requestId w = (Ok response, w') ->
  handleChatCompletions rt env request requestId w = (Ok response, w').
Proof.
  intros H. unfold handleChatCompletions, try_catch. now rewrite H.
Qed.

Lemma handleChatCompletions_catches (request : Request) (requestId : string)
    (w w' : World) (e : exn) :
  chatCompletions_try rt env request requestId w = (Throw e, w') ->
  fst (handleChatCompletions rt env request requestId w)
  = Ok (generation_failed (message rt e)) /\
  outbound (snd (handleChatCompletions rt env request requestId w)) = outbound w'.
Proof.
  intros H. unfold handleChatCompletions, try_catch. rewrite H. split; reflexivity.
Qed.

(** The answer step makes no call of its own. *)
Lemma answer_outbound (body model : value) (response : UpstreamResponse)
    (requestId : string) (w : World) :
  outbound (snd (chatCompletions_answer rt env body model response requestId w))
  = outbound w.
Proof.
  unfold chatCompletions_answer, bind, lift, ret, throw,
    handleStreamResponse, handleNormalResponse, epoch_seconds, date_now.
  destruct (ok response); cbn [negb];
    [| destruct (up_text response); reflexivity].
  destruct (up_json response) as [data |]; [| reflexivity].
  destruct (member data f_success) as [success |]; [| reflexivity].
  destruct (truthy success); cbn [negb]; [| reflexivity].
  destruct (member data f_data) as [d |]; [| reflexivity].
  destruct (truthy d); cbn [negb]; [| reflexivity].
  destruct (member body f_stream) as [stream |]; [| reflexivity].
  destruct (truthy stream); reflexivity.
Qed.

(** The answer step returns a 200 response or throws. *)
Lemma answer_status (body model : value) (response : UpstreamResponse)
    (requestId : string) (w : World) (r : Response) (w' : World) :
  chatCompletions_answer rt env body model response requestId w = (Ok r, w') ->
  status r = 200%Z.
Proof.
  unfold chatCompletions_answer, bind, lift, ret, throw,
    handleStreamResponse, handleNormalResponse, epoch_seconds, date_now.
  destruct (ok response); cbn [negb];
    [| destruct (up_text response); discriminate].
  destruct (up_json response) as [data |]; [| discriminate].
  destruct (member data f_success) as [success |]; [| discriminate].
  destruct (truthy success); cbn [negb]; [| discriminate].
  destruct (member data f_data) as [d |]; [| discriminate].
  destruct (truthy d); cbn [negb]; [| discriminate].
  destruct (member body f_stream) as [stream |]; [| discriminate].
  destruct (truthy stream); intros [= <- _]; reflexivity.
Qed.

(** The handler never raises past its own boundary: it returns a response,
    with status 200, 400 or 500. *)
Lemma handleChatCompletions_responds (request : Request) (requestId : string)
    (w : World) :
  exists (response : Response) (w' : World),
    handleChatCompletions rt env request requestId w = (Ok response, w') /\
    (status response = 200 \/ status response = 400 \/ status response = 500)%Z.
Proof.
  unfold handleChatCompletions, try_catch.
  destruct (chatCompletions_try rt env request requestId w) as [[r | e] w'] eqn:Htry.
  - exists r, w'. split; [reflexivity |].
    revert Htry. unfold chatCompletions_try, bind, lift, ret.
    destruct (request_json request) as [body |]; [| discriminate].
    destruct (member body f_messages) as [bm |]; [| discriminate].
    destruct (find_last_user _) as [lastMsg |]; [| discriminate].
    destruct (truthy lastMsg); cbn [negb].
    + unfold chatCompletions_forward, bind, lift, crypto_randomUUID, fetch.
      destruct (member lastMsg f_content) as [prompt |]; [| discriminate].
      destruct (member body f_model) as [bmodel |]; [| discriminate].
      unfold ToPropertyKey.
      destruct (unconvertible _); [discriminate |].
      destruct (upstream env _) as [response |]; [| discriminate].
      intros H. left. eapply answer_status. exact H.
    + intros [= <- _]. right; left; reflexivity.
  - do 2 eexists. split; [reflexivity |]. right; right; reflexivity.
Qed.

End BoundaryFacts.

(* ------------------------------------------------------------------ *)
(** * Claims about the chat handler                                     *)
(* ------------------------------------------------------------------ *)


(** An accepted upstream answer becomes the response: a stream or a
    completion, after the [stream] flag of the body. *)
Lemma chat_accepted (rt : Runtime) (env : Env) (request : Request)
    (requestId : string) (props : list (string * value)) (ms : list Message)
    (m : Message) (w : World) (text : value) :
  chat_body request props ms ->
  last_user_message ms m ->
  unconvertible (chosenModel props) = false ->
  accepted (upstream env (upstreamCall rt env props m w)) text ->
  exists response,
    fst (handleChatCompletions rt env request requestId w) = Ok response /\
    status response = 200%Z /\
    body response =
      if truthy (lookup props "stream")
      then BodyReadable text (chosenModel props) requestId
      else BodyJson (ChatCompletion requestId
                       (Date_now env (clock_reads w) / 1000)
                       (chosenModel props) text).
Proof.
  intros Hbody Hlast Hconv (r & data & success & Hr & Hok & Hjson & Hs & Hts & Hd & Htd).
  pose proof (chatCompletions_try_forward rt env request requestId props ms m w
                Hbody Hlast) as Htry.
  rewrite forward_run, Hr in Htry by exact Hconv.
  rewrite (answer_accepted rt env (VObj props) (chosenModel props) r requestId _
             data success text Hok Hjson Hs Hts Hd Htd
             (lookup props "stream") eq_refl) in Htry.
  destruct (truthy (lookup props "stream")).
  - rewrite (handleChatCompletions_returns rt env _ _ _ _ _ Htry).
    eexists. split; [reflexivity | split; reflexivity].
  - rewrite handleNormalResponse_run in Htry.
    rewrite (handleChatCompletions_returns rt env _ _ _ _ _ Htry).
    eexists. split; [reflexivity | split; reflexivity].
Qed.


Lemma hello_is_chat_body (extra : list (string * value)) :
  chat_body (hello_request extra) (hello_props extra) [hello].
Proof. split; reflexivity. Qed.

Lemma hello_is_last_user : last_user_message [hello] hello.
Proof. exists [], []. repeat split. constructor. Qed.

Lemma greeting_accepted : accepted (Ok greeting) (VStr "Hi there").
Proof.
  exists greeting, (VObj [("success", VBool true); ("data", VStr "Hi there")]), (VBool true).
  repeat split.
Qed.



(** C4, as the code has it.  A request whose body is a JSON object with no
    user message, [messages] being absent (or falsy) or a sequence of
    messages none of which has role "user", is answered with exactly the
    invalid_request/400 error, and nothing else happens.  A request whose
    body cannot be parsed is answered with a generation_failed/500 error
    that carries the parser's message. *)
Theorem no_user_message_is_invalid_request (rt : Runtime) (env : Env)
    (request : Request) (requestId : string) (w : World) :
  (forall (props : list (string * value)) (ms : list Message),
     request_json request = Ok (VObj props) ->
     truthy (lookup props "messages") = false \/
     (lookup props "messages" = VArr (map message_value ms) /\
      Forall (fun x => role x <> "user") ms) ->
     handleChatCompletions rt env request requestId w = (Ok invalid_request, w)) /\
  (forall e : exn,
     request_json request = Throw e ->
     fst (handleChatCompletions rt env request requestId w)
     = Ok (generation_failed (message rt e))).
Proof.
  split.
  - intros props ms Hjson Hmsgs. apply handleChatCompletions_returns.
    exact (chatCompletions_try_no_user rt env request requestId props ms w Hjson Hmsgs).
  - intros e Hjson.
    apply (handleChatCompletions_catches rt env request requestId w w e).
    unfold chatCompletions_try, bind, lift. now rewrite Hjson.
Qed.

Lemma no_user_message_is_invalid_request_witness :
  request_json briefing_request
  = Ok (VObj [("messages", VArr (map message_value [briefing]))]) /\
  Forall (fun x => role x <> "user") [briefing] /\
  handleChatCompletions sample_runtime steady_env briefing_request "req-1" fresh
  = (Ok invalid_request, fresh).
Proof.
  assert (Hnone : Forall (fun x => role x <> "user") [briefing]).
  { constructor; [discriminate | constructor]. }
  split; [reflexivity | split; [exact Hnone |]].
  apply (proj1 (no_user_message_is_invalid_request sample_runtime steady_env
                  briefing_request "req-1" fresh)
           [("messages", VArr (map message_value [briefing]))] [briefing] eq_refl).
  right. split; [reflexivity | exact Hnone].
Defined.

(** C4, as claimed, fails: a body that is not JSON is answered with
    generation_failed/500, not with invalid_request/400. *)
Lemma malformed_body_is_generation_failed :
  fst (handleChatCompletions sample_runtime steady_env malformed_request "req-1" fresh)
  = Ok (generation_failed "JSON Parse error: Unexpected EOF") /\
  fst (handleChatCompletions sample_runtime steady_env malformed_request "req-1" fresh)
  <> Ok invalid_request.
Proof.
  assert (Hrun : fst (handleChatCompletions sample_runtime steady_env malformed_request
                        "req-1" fresh)
                 = Ok (generation_failed "JSON Parse error: Unexpected EOF"))
    by reflexivity.
  split; [exact Hrun |]. rewrite Hrun. intros H. discriminate H.
Qed.

(** A chat request with a user message, whose model converts to a property
    key, makes exactly one upstream call. *)
Lemma chat_makes_one_call (rt : Runtime) (env : Env) (request : Request)
    (requestId : string) (props : list (string * value)) (ms : list Message)
    (m : Message) (w : World) :
  chat_body request props ms ->
  last_user_message ms m ->
  unconvertible (chosenModel props) = false ->
  outbound (snd (handleChatCompletions rt env request requestId w))
  = (outbound w ++ [upstreamCall rt env props m w])%list.
Proof.
  intros Hbody Hlast Hconv.
  pose proof (chatCompletions_try_forward rt env request requestId props ms m w
                Hbody Hlast) as Htry.
  rewrite forward_run in Htry by exact Hconv.
  destruct (chatCompletions_try rt env request requestId w) as [[r | e] w'] eqn:Hrun.
  - rewrite (handleChatCompletions_returns rt env _ _ _ _ _ Hrun). cbn [snd].
    destruct (upstream env _) as [response |]; [| discriminate Htry].
    apply (f_equal (fun p => outbound (snd p))) in Htry. cbn [snd] in Htry.
    rewrite Htry, answer_outbound. reflexivity.
  - rewrite (proj2 (handleChatCompletions_catches rt env _ _ _ _ _ Hrun)).
    destruct (upstream env _) as [response |].
    + apply (f_equal (fun p => outbound (snd p))) in Htry. cbn [snd] in Htry.
      rewrite Htry, answer_outbound. reflexivity.
    + injection Htry as _ ->. reflexivity.
Qed.

(** Where the model does not convert to a property key, the lookup of the
    endpoint throws before anything is sent. *)
Lemma chat_makes_no_call (rt : Runtime) (env : Env) (request : Request)
    (requestId : string) (props : list (string * value)) (ms : list Message)
    (m : Message) (w : World) :
  chat_body request props ms ->
  last_user_message ms m ->
  unconvertible (chosenModel props) = true ->
  fst (handleChatCompletions rt env request requestId w)
  = Ok (generation_failed (message rt (TypeError NotPrimitive))) /\
  outbound (snd (handleChatCompletions rt env request requestId w)) = outbound w.
Proof.
  intros Hbody Hlast Hconv.
  pose proof (chatCompletions_try_forward rt env request requestId props ms m w
                Hbody Hlast) as Htry.
  rewrite forward_unconvertible in Htry by exact Hconv.
  exact (handleChatCompletions_catches rt env _ _ _ _ _ Htry).
Qed.

(** C8.  For every messages sequence with at least one message of role
    "user", the payload sent upstream is [{ text: C }] where [C] is the
    content of the most recent message with role "user": no other message
    contributes.  Nothing else is sent: the handler makes exactly one
    upstream call when the model of the request converts to a property key
    (it is absent or a string, say), and none when it does not. *)
Theorem upstream_payload (rt : Runtime) (env : Env) (request : Request)
    (requestId : string) (props : list (string * value)) (ms : list Message)
    (m : Message) (w : World) :
  chat_body request props ms ->
  last_user_message ms m ->
  (forall call : FetchCall,
     In call (outbound (snd (handleChatCompletions rt env request requestId w))) ->
     In call (outbound w) \/
     (fetch_method call = "POST" /\
      fetch_body call = JSON_stringify rt (VObj [("text", VStr (content m))]))) /\
  (unconvertible (chosenModel props) = false ->
   exists call : FetchCall,
     outbound (snd (handleChatCompletions rt env request requestId w))
     = (outbound w ++ [call])%list /\
     fetch_method call = "POST" /\
     fetch_body call = JSON_stringify rt (VObj [("text", VStr (content m))])) /\
  (unconvertible (chosenModel props) = true ->
   outbound (snd (handleChatCompletions rt env request requestId w)) = outbound w).
Proof.
  intros Hbody Hlast.
  split; [| split].
  - intros call Hin.
    destruct (unconvertible (chosenModel props)) eqn:Hconv.
    + left.
      now rewrite (proj2 (chat_makes_no_call rt env request requestId props ms m w
                           Hbody Hlast Hconv)) in Hin.
    + rewrite (chat_makes_one_call rt env request requestId props ms m w
                 Hbody Hlast Hconv) in Hin.
      apply in_app_or in Hin as [Hold | [<- | []]]; [left; exact Hold |].
      right. split; reflexivity.
  - intros Hconv. exists (upstreamCall rt env props m w).
    split; [| split; reflexivity].
    now apply chat_makes_one_call with (ms := ms).
  - intros Hconv.
    exact (proj2 (chat_makes_no_call rt env request requestId props ms m w
                    Hbody Hlast Hconv)).
Qed.

Lemma upstream_payload_witness :
  chat_body (hello_request []) (hello_props []) [hello] /\
  last_user_message [hello] hello /\
  unconvertible (chosenModel (hello_props [])) = false /\
  exists call : FetchCall,
    outbound (snd (handleChatCompletions sample_runtime steady_env (hello_request [])
                     "req-1" fresh)) = [call] /\
    fetch_method call = "POST" /\
    fetch_body call = JSON_stringify sample_runtime (VObj [("text", VStr "Hello")]).
Proof.
  split; [apply hello_is_chat_body | split; [apply hello_is_last_user |]].
  split; [reflexivity |].
  exact (proj1 (proj2 (upstream_payload sample_runtime steady_env (hello_request [])
                         "req-1" (hello_props []) [hello] hello fresh
                         (hello_is_chat_body []) hello_is_last_user))
           eq_refl).
Defined.

(** Earlier user messages do not reach the upstream. *)
Example upstream_payload_latest :
  map fetch_body
    (outbound (snd (handleChatCompletions sample_runtime steady_env
       {| method := "POST"; pathname := "/v1/chat/completions"; authorization := None;
          request_json := Ok (VObj [("messages", VArr (map message_value
            [ {| role := "user"; content := "first" |};
              {| role := "assistant"; content := "reply" |};
              {| role := "user"; content := "second" |};
              {| role := "system"; content := "note" |} ]))]) |}
       "req-1" fresh)))
  = [JSON_stringify sample_runtime (VObj [("text", VStr "second")])].
Proof. vm_compute. reflexivity. Qed.

(* ------------------------------------------------------------------ *)
(** * The auth check                                                    *)
(* ------------------------------------------------------------------ *)

Lemma API_MASTER_KEY_nonempty (process_env : option string) :
  API_MASTER_KEY process_env <> EmptyString.
Proof.
  destruct process_env as [k |]; simpl; [| discriminate].
  destruct (k =? EmptyString) eqn:Hk; [discriminate |].
  now apply String.eqb_neq.
Qed.

Lemma startsWith_split (h p : string) :
  startsWith h p = true -> h = (p ++ substring_from h (String.length p))%string.
Proof.
  unfold startsWith, substring_from. intros H.
  apply prefix_correct in H.
  transitivity (substring 0 (String.length p) h
                ++ substring (0 + String.length p) (String.length h - String.length p) h)%string.
  - rewrite substring_append, substring_overshoot by lia.
    rewrite Nat.sub_0_r. symmetry. apply substring_whole.
  - rewrite H. reflexivity.
Qed.

Lemma bearer_startsWith (token : string) :
  startsWith ("Bearer " ++ token) "Bearer " = true.
Proof. unfold startsWith. simpl. now destruct token. Qed.

Lemma bearer_token (token : string) :
  substring_from ("Bearer " ++ token) 7 = token.
Proof.
  unfold substring_from. simpl. rewrite Nat.sub_0_r. apply substring_whole.
Qed.

Section AuthFacts.

Variable rt : Runtime.
Variable env : Env.

Lemma authCheck_open (request : Request) :
  API_MASTER_KEY (process_env_API_MASTER_KEY env) = "1" ->
  authCheck env request = None.
Proof.
  unfold authCheck. intros ->. reflexivity.
Qed.

Lemma authCheck_guarded (request : Request) :
  API_MASTER_KEY (process_env_API_MASTER_KEY env) <> "1" ->
  authCheck env request =
  match authorization request with
  | None => Some unauthorized
  | Some h =>
      if startsWith h "Bearer " then
        if substring_from h 7 =? API_MASTER_KEY (process_env_API_MASTER_KEY env)
        then None else Some invalid_api_key
      else Some unauthorized
  end.
Proof.
  intros Hkey. unfold authCheck.
  set (apiKey := API_MASTER_KEY (process_env_API_MASTER_KEY env)) in *.
  assert (H1 : (apiKey =? "1") = false) by now apply String.eqb_neq.
  assert (H0 : (apiKey =? EmptyString) = false).
  { apply String.eqb_neq. apply API_MASTER_KEY_nonempty. }
  rewrite H0, H1. cbn [negb andb].
  destruct (authorization request) as [h |]; [| reflexivity].
  destruct (h =? EmptyString) eqn:Hh.
  - apply String.eqb_eq in Hh. subst h. reflexivity.
  - cbn [orb]. destruct (startsWith h "Bearer "); cbn [negb]; [| reflexivity].
    destruct (substring_from h 7 =? apiKey); reflexivity.
Qed.

Lemma handleModelsRequest_status (w : World) :
  exists (response : Response) (w' : World),
    handleModelsRequest env w = (Ok response, w') /\ status response = 200%Z.
Proof. do 2 eexists. split; reflexivity. Qed.

(** A request that passes the auth check is answered with 200, 400, 404 or
    500. *)
Lemma handleApi_passes (request : Request) (w : World) :
  authCheck env request = None ->
  exists (response : Response) (w' : World),
    handleApi rt env request w = (Ok response, w') /\
    ~ rejected_for_auth response.
Proof.
  intros Hauth. unfold handleApi. rewrite Hauth.
  unfold bind at 1, crypto_randomUUID at 1.
  destruct (pathname request =? "/v1/models").
  - destruct (handleModelsRequest_status
                {| clock_reads := clock_reads w; uuid_draws := S (uuid_draws w);
                   outbound := outbound w; console := console w;
                   sink := sink w; closed := closed w |})
      as (response & w' & Hrun & Hstatus).
    exists response, w'. split; [exact Hrun |].
    unfold rejected_for_auth. rewrite Hstatus. intros [H | H]; discriminate H.
  - destruct (pathname request =? "/v1/chat/completions").
    + destruct (handleChatCompletions_responds rt env request
                  ("req-" ++ randomUUID env (uuid_draws w))
                  {| clock_reads := clock_reads w; uuid_draws := S (uuid_draws w);
                     outbound := outbound w; console := console w;
                     sink := sink w; closed := closed w |})
        as (response & w' & Hrun & Hstatus).
      exists response, w'. split; [exact Hrun |].
      unfold rejected_for_auth.
      destruct Hstatus as [H | [H | H]]; rewrite H; intros [H' | H']; discriminate H'.
    + do 2 eexists. split; [reflexivity |].
      unfold rejected_for_auth. cbn [status createErrorResponse].
      intros [H | H]; discriminate H.
Qed.

Lemma handleApi_rejects (request : Request) (w : World) (rejection : Response) :
  authCheck env request = Some rejection ->
  handleApi rt env request w = (Ok rejection, w).
Proof.
  intros Hauth. unfold handleApi. now rewrite Hauth.
Qed.

End AuthFacts.

(** C5.  With a configured master key other than the sentinel "1": a request
    with no Authorization header, or with one that does not start with
    "Bearer ", gets 401; a request whose bearer token differs from the key
    gets 403; so every request without the correct bearer token gets 401 or
    403; and a request with the exactly matching bearer token is not
    rejected for auth.  With the sentinel as master key no request is
    rejected for auth. *)
Theorem bearer_auth (rt : Runtime) (env : Env) (request : Request) (w : World) :
  let apiKey := API_MASTER_KEY (process_env_API_MASTER_KEY env) in
  let result := handleApi rt env request w in
  (apiKey <> "1" ->
     (authorization request = None \/
      (exists h, authorization request = Some h /\ startsWith h "Bearer " = false) ->
      result = (Ok unauthorized, w)) /\
     (forall token, authorization request = Some ("Bearer " ++ token) ->
        token <> apiKey -> result = (Ok invalid_api_key, w)) /\
     (authorization request <> Some ("Bearer " ++ apiKey) ->
      exists response, result = (Ok response, w) /\ rejected_for_auth response) /\
     (authorization request = Some ("Bearer " ++ apiKey) ->
      exists response w', result = (Ok response, w') /\ ~ rejected_for_auth response)) /\
  (apiKey = "1" ->
     exists response w', result = (Ok response, w') /\ ~ rejected_for_auth response).
Proof.
  intros apiKey result. split.
  - intros Hkey.
    pose proof (authCheck_guarded env request Hkey) as Hcheck. fold apiKey in Hcheck.
    split; [| split; [| split]].
    + intros [Hnone | (h & Hh & Hprefix)]; apply handleApi_rejects; rewrite Hcheck.
      * now rewrite Hnone.
      * now rewrite Hh, Hprefix.
    + intros token Hh Hneq. apply handleApi_rejects. rewrite Hcheck, Hh.
      rewrite bearer_startsWith, bearer_token.
      apply String.eqb_neq in Hneq. now rewrite Hneq.
    + intros Hwrong.
      destruct (authorization request) as [h |] eqn:Hh.
      * destruct (startsWith h "Bearer ") eqn:Hprefix.
        -- destruct (substring_from h 7 =? apiKey) eqn:Htoken.
           ++ exfalso. apply Hwrong. f_equal.
              apply String.eqb_eq in Htoken. rewrite <- Htoken.
              exact (startsWith_split h "Bearer " Hprefix).
           ++ exists invalid_api_key. split; [| right; reflexivity].
              apply handleApi_rejects. exact Hcheck.
        -- exists unauthorized. split; [| left; reflexivity].
           apply handleApi_rejects. exact Hcheck.
      * exists unauthorized. split; [| left; reflexivity].
        apply handleApi_rejects. exact Hcheck.
    + intros Hh. apply handleApi_passes. rewrite Hcheck, Hh.
      rewrite bearer_startsWith, bearer_token. now rewrite String.eqb_refl.
  - intros Hkey. apply handleApi_passes. now apply authCheck_open.
Qed.

Lemma bearer_auth_witness :
  API_MASTER_KEY (process_env_API_MASTER_KEY keyed_env) <> "1" /\
  "wrong" <> API_MASTER_KEY (process_env_API_MASTER_KEY keyed_env) /\
  handleApi sample_runtime keyed_env (models_request (Some "Bearer wrong")) fresh
  = (Ok invalid_api_key, fresh) /\
  handleApi sample_runtime keyed_env (models_request None) fresh
  = (Ok unauthorized, fresh) /\
  (exists response w',
     handleApi sample_runtime keyed_env (models_request (Some "Bearer secret")) fresh
     = (Ok response, w') /\ ~ rejected_for_auth response) /\
  API_MASTER_KEY (process_env_API_MASTER_KEY steady_env) = "1" /\
  (exists response w',
     handleApi sample_runtime steady_env (models_request None) fresh
     = (Ok response, w') /\ ~ rejected_for_auth response).
Proof.
  assert (Hkey : API_MASTER_KEY (process_env_API_MASTER_KEY keyed_env) <> "1")
    by discriminate.
  assert (Hwrong : "wrong" <> API_MASTER_KEY (process_env_API_MASTER_KEY keyed_env))
    by discriminate.
  split; [exact Hkey | split; [exact Hwrong |]].
  split; [| split; [| split; [| split; [reflexivity |]]]].
  - exact (proj1 (proj2 (proj1 (bearer_auth sample_runtime keyed_env
                                  (models_request (Some "Bearer wrong")) fresh) Hkey))
             "wrong" eq_refl Hwrong).
  - exact (proj1 (proj1 (bearer_auth sample_runtime keyed_env
                           (models_request None) fresh) Hkey)
             (or_introl eq_refl)).
  - exact (proj2 (proj2 (proj2 (proj1 (bearer_auth sample_runtime keyed_env
                                         (models_request (Some "Bearer secret")) fresh)
                                  Hkey)))
             eq_refl).
  - exact (proj2 (bearer_auth sample_runtime steady_env (models_request None) fresh)
             eq_refl).
Defined.

(** The server entry hands every request for a path under /v1/ to the auth
    check, except the CORS preflight, which it answers itself. *)
Lemma serve_v1 (rt : Runtime) (env : Env) (request : Request) (w : World) :
  startsWith (pathname request) "/v1/" = true ->
  serve rt env request w =
  if method request =? "OPTIONS" then (Ok handleCorsPreflight, w)
  else handleApi rt env request w.
Proof.
  intros Hv1. unfold serve. rewrite Hv1.
  destruct (method request =? "OPTIONS"); [reflexivity |].
  destruct (pathname request =? "/") eqn:Hroot; [| reflexivity].
  apply String.eqb_eq in Hroot. rewrite Hroot in Hv1. discriminate Hv1.
Qed.

(* ------------------------------------------------------------------ *)
(** * Model resolution                                                  *)
(* ------------------------------------------------------------------ *)

Lemma MODEL_MAP_own (k : string) (v : value) :
  assoc k MODEL_MAP = Some v ->
  exists path, v = VStr path /\ In (k, VStr path) MODEL_MAP /\ truthy v = true.
Proof.
  unfold MODEL_MAP. cbn [assoc].
  destruct ("teleprompt-reason" =? k) eqn:H1.
  { apply String.eqb_eq in H1. subst k. intros [= <-].
    eexists. split; [reflexivity | split; [left; reflexivity | reflexivity]]. }
  destruct ("teleprompt-standard" =? k) eqn:H2.
  { apply String.eqb_eq in H2. subst k. intros [= <-].
    eexists. split; [reflexivity | split; [right; left; reflexivity | reflexivity]]. }
  destruct ("teleprompt-apps" =? k) eqn:H3.
  { apply String.eqb_eq in H3. subst k. intros [= <-].
    eexists. split; [reflexivity | split; [right; right; left; reflexivity | reflexivity]]. }
  discriminate.
Qed.

(** Where the key is not a member name of [Object.prototype], resolution
    yields a registered endpoint: the one of the key when the key is
    registered, the one of the default model otherwise. *)
Lemma resolveEndpoint_registered (rt : Runtime) (model : value) :
  on_Object_prototype (ToString rt model) = false ->
  registered_endpoint (resolveEndpoint rt model) /\
  (forall path, assoc (ToString rt model) MODEL_MAP = Some (VStr path) ->
     resolveEndpoint rt model = VStr path) /\
  (assoc (ToString rt model) MODEL_MAP = None ->
     resolveEndpoint rt model = VStr default_endpoint).
Proof.
  intros Hown.
  assert (Hlookup : lookup MODEL_MAP (ToString rt model) =
                    match assoc (ToString rt model) MODEL_MAP with
                    | Some v => v
                    | None => VUndefined
                    end).
  { unfold lookup. now rewrite Hown. }
  unfold resolveEndpoint. rewrite Hlookup.
  destruct (assoc (ToString rt model) MODEL_MAP) as [v |] eqn:Hassoc.
  - destruct (MODEL_MAP_own _ _ Hassoc) as (path & -> & Hin & Htruthy).
    unfold js_or. rewrite Htruthy.
    split; [exists (ToString rt model), path; auto |].
    split; [intros p [= <-]; reflexivity | discriminate].
  - cbn [js_or truthy].
    split; [exists DEFAULT_MODEL, default_endpoint; split; [left |]; reflexivity |].
    split; [discriminate | reflexivity].
Qed.

(** An absent model resolves to the endpoint of the default model. *)
Lemma resolveEndpoint_absent (rt : Runtime) (props : list (string * value)) :
  truthy (lookup props "model") = false ->
  chosenModel props = VStr DEFAULT_MODEL /\
  resolveEndpoint rt (chosenModel props) = VStr default_endpoint.
Proof.
  intros Habsent. unfold chosenModel, js_or. rewrite Habsent.
  split; [reflexivity |].
  unfold resolveEndpoint. rewrite ToString_string. reflexivity.
Qed.

(** C9, at the failing input.  For the model "constructor", which is not a
    key of the registry, resolution yields the member that the registry
    object inherits from [Object.prototype]: not the endpoint of the default
    model, and no registered endpoint path at all. *)
Theorem resolve_inherited_name (rt : Runtime) :
  assoc "constructor" MODEL_MAP = None /\
  resolveEndpoint rt (VStr "constructor") = VNative "constructor" /\
  resolveEndpoint rt (VStr "constructor") <> VStr default_endpoint /\
  ~ registered_endpoint (resolveEndpoint rt (VStr "constructor")).
Proof.
  assert (Hres : resolveEndpoint rt (VStr "constructor") = VNative "constructor").
  { unfold resolveEndpoint. rewrite ToString_string. reflexivity. }
  split; [reflexivity | split; [exact Hres |]]. rewrite Hres.
  split; [discriminate |].
  intros (modelId & path & _ & H). discriminate H.
Qed.

(** The call that a request for the model "constructor" makes: its URL is
    the upstream origin followed by the inherited member, as text. *)
Lemma constructor_request_url (rt : Runtime) (env : Env) (w : World) :
  outbound (snd (handleChatCompletions rt env
                   (hello_request [("model", VStr "constructor")]) "req-1" w))
  = (outbound w
     ++ [upstreamCall rt env (hello_props [("model", VStr "constructor")]) hello w])%list /\
  fetch_url (upstreamCall rt env (hello_props [("model", VStr "constructor")]) hello w)
  = UPSTREAM_ORIGIN ++ ToString rt (VNative "constructor").
Proof.
  split.
  - apply chat_makes_one_call with (ms := [hello]).
    + apply hello_is_chat_body.
    + apply hello_is_last_user.
    + reflexivity.
  - unfold upstreamCall. cbn [fetch_url]. do 2 f_equal.
    change (chosenModel (hello_props [("model", VStr "constructor")]))
      with (VStr "constructor").
    unfold resolveEndpoint. rewrite ToString_string. reflexivity.
Qed.

(* ------------------------------------------------------------------ *)
(** * The echoed model                                                  *)
(* ------------------------------------------------------------------ *)

(** C10, as the code has it.  For every request whose model is a non-empty
    string [M] that is not a key of the registry, and whose upstream answer
    is accepted, the model echoed is [M] itself: in the non-streaming
    ChatCompletion, and in every chunk of the stream.  Where [M] is not a
    member name of [Object.prototype] either, the upstream call goes to the
    endpoint of the default model. *)
Theorem echoed_model (rt : Runtime) (env : Env) (request : Request)
    (requestId : string) (props : list (string * value)) (ms : list Message)
    (m : Message) (w : World) (M : string) (text : value) :
  chat_body request props ms ->
  last_user_message ms m ->
  lookup props "model" = VStr M ->
  M <> EmptyString ->
  assoc M MODEL_MAP = None ->
  accepted (upstream env (upstreamCall rt env props m w)) text ->
  (exists response,
     fst (handleChatCompletions rt env request requestId w) = Ok response /\
     body response =
       if truthy (lookup props "stream")
       then BodyReadable text (VStr M) requestId
       else BodyJson (ChatCompletion requestId
                        (Date_now env (clock_reads w) / 1000) (VStr M) text)) /\
  (forall created, prop (ChatCompletion requestId created (VStr M) text) "model" = VStr M) /\
  (forall (T : string) (w0 : World),
     exists new : list Frame,
       sink (snd (streamTask env T (VStr M) requestId w0)) = (sink w0 ++ new)%list /\
       forall payload, In (SseJson payload) new -> prop payload "model" = VStr M) /\
  (on_Object_prototype M = false ->
   fetch_url (upstreamCall rt env props m w) = UPSTREAM_ORIGIN ++ default_endpoint).
Proof.
  intros Hbody Hlast Hmodel Hnonempty Hunknown Hacc.
  assert (Hchosen : chosenModel props = VStr M).
  { unfold chosenModel, js_or. rewrite Hmodel. cbn [truthy].
    apply String.eqb_neq in Hnonempty. now rewrite Hnonempty. }
  split; [| split; [| split]].
  - assert (Hconv : unconvertible (chosenModel props) = false)
      by (rewrite Hchosen; reflexivity).
    destruct (chat_accepted rt env request requestId props ms m w text
                Hbody Hlast Hconv Hacc)
      as (response & Hres & _ & Hresp).
    rewrite Hchosen in Hresp. eauto.
  - reflexivity.
  - intros T w0.
    destruct (streamTask_stamped env T (VStr M) requestId w0) as (new & Hsink & Hst).
    exists new. split; [exact Hsink |].
    intros payload Hin. apply In_nth_error in Hin as [j Hj].
    now destruct (Hst j payload Hj) as (_ & Hm & _).
  - intros Hown. unfold upstreamCall. cbn [fetch_url]. rewrite Hchosen.
    destruct (resolveEndpoint_registered rt (VStr M)) as (_ & _ & Hdefault).
    + now rewrite ToString_string.
    + rewrite Hdefault by now rewrite ToString_string.
      now rewrite ToString_string.
Qed.

Lemma echoed_model_witness :
  chat_body (hello_request [("model", VStr "gpt-4")])
    (hello_props [("model", VStr "gpt-4")]) [hello] /\
  last_user_message [hello] hello /\
  lookup (hello_props [("model", VStr "gpt-4")]) "model" = VStr "gpt-4" /\
  "gpt-4" <> EmptyString /\
  assoc "gpt-4" MODEL_MAP = None /\
  exists response,
    fst (handleChatCompletions sample_runtime steady_env
           (hello_request [("model", VStr "gpt-4")]) "req-1" fresh) = Ok response /\
    body response =
      BodyJson (ChatCompletion "req-1" 1700000000 (VStr "gpt-4") (VStr "Hi there")).
Proof.
  assert (Hne : "gpt-4" <> EmptyString) by discriminate.
  split; [apply hello_is_chat_body | split; [apply hello_is_last_user |]].
  split; [reflexivity | split; [exact Hne | split; [reflexivity |]]].
  exact (proj1 (echoed_model sample_runtime steady_env
                  (hello_request [("model", VStr "gpt-4")]) "req-1"
                  (hello_props [("model", VStr "gpt-4")]) [hello] hello fresh
                  "gpt-4" (VStr "Hi there")
                  (hello_is_chat_body _) hello_is_last_user eq_refl Hne eq_refl
                  greeting_accepted)).
Defined.

(** C10, as claimed, fails: a request whose model is the empty string, which
    is not registered, gets the default model id echoed, not its own
    string. *)
Lemma empty_model_echoes_default :
  lookup (hello_props [("model", VStr EmptyString)]) "model" = VStr EmptyString /\
  assoc EmptyString MODEL_MAP = None /\
  fst (handleChatCompletions sample_runtime steady_env
         (hello_request [("model", VStr EmptyString)]) "req-1" fresh)
  = Ok {| status := 200;
          headers := corsHeaders [("Content-Type", "application/json")];
          body := BodyJson (ChatCompletion "req-1" 1700000000 (VStr DEFAULT_MODEL)
                              (VStr "Hi there")) |} /\
  prop (ChatCompletion "req-1" 1700000000 (VStr DEFAULT_MODEL) (VStr "Hi there")) "model"
  <> VStr EmptyString.
Proof.
  split; [reflexivity | split; [reflexivity | split]].
  - vm_compute. reflexivity.
  - discriminate.
Qed.

(* ------------------------------------------------------------------ *)
(** * What a chat request does to the world                             *)
(* ------------------------------------------------------------------ *)

Section ChatOutcome.

Variable rt : Runtime.
Variable env : Env.

(** The answer step only reads the clock, at most once, and what it returns
    is a completion or a stream. *)
Lemma answer_outcome (body model : value) (response : UpstreamResponse)
    (requestId : string) (w : World) :
  exists (n : nat),
    snd (chatCompletions_answer rt env body model response requestId w) = ticked n w /\
    ((exists e, fst (chatCompletions_answer rt env body model response requestId w)
                = Throw e) \/
     (exists text,
        fst (chatCompletions_answer rt env body model response requestId w)
        = Ok (completion_response requestId (Date_now env (clock_reads w) / 1000)
                model text)) \/
     (exists text,
        fst (chatCompletions_answer rt env body model response requestId w)
        = Ok (stream_response text model requestId))).
Proof.
  assert (H0 : ticked 0 w = w).
  { destruct w. unfold ticked. cbn. now rewrite Nat.add_0_r. }
  unfold chatCompletions_answer, bind, lift, ret, throw,
    handleStreamResponse, handleNormalResponse, epoch_seconds, date_now.
  destruct (ok response); cbn [negb];
    [| destruct (up_text response);
       (exists 0; rewrite H0; split; [reflexivity | left; eexists; reflexivity])].
  destruct (up_json response) as [data | e];
    [| exists 0; rewrite H0; split; [reflexivity | left; eexists; reflexivity]].
  destruct (member data f_success) as [success | e];
    [| exists 0; rewrite H0; split; [reflexivity | left; eexists; reflexivity]].
  destruct (truthy success); cbn [negb];
    [| exists 0; rewrite H0; split; [reflexivity | left; eexists; reflexivity]].
  destruct (member data f_data) as [d | e];
    [| exists 0; rewrite H0; split; [reflexivity | left; eexists; reflexivity]].
  destruct (truthy d); cbn [negb];
    [| exists 0; rewrite H0; split; [reflexivity | left; eexists; reflexivity]].
  destruct (member body f_stream) as [stream | e];
    [| exists 0; rewrite H0; split; [reflexivity | left; eexists; reflexivity]].
  destruct (truthy stream).
  - exists 0. rewrite H0. split; [reflexivity |].
    right; right. eexists. reflexivity.
  - exists 1. split.
    + unfold ticked. cbn. now rewrite Nat.add_1_r.
    + right; left. eexists. reflexivity.
Qed.

(** The three ways a chat request can go: it is turned down before any
    call; it fails before any call; or it makes one call to the upstream
    origin and then fails or answers. *)
Lemma chatCompletions_try_outcome (request : Request) (requestId : string)
    (w : World) :
  chatCompletions_try rt env request requestId w = (Ok invalid_request, w) \/
  (exists e, chatCompletions_try rt env request requestId w = (Throw e, w)) \/
  (exists (call : FetchCall) (n : nat),
     snd (chatCompletions_try rt env request requestId w) = ticked n (called call w) /\
     fetch_method call = "POST" /\
     (exists endpoint, fetch_url call = UPSTREAM_ORIGIN ++ endpoint) /\
     ((exists e, fst (chatCompletions_try rt env request requestId w) = Throw e) \/
      (exists created model text,
         fst (chatCompletions_try rt env request requestId w)
         = Ok (completion_response requestId created model text)) \/
      (exists model text,
         fst (chatCompletions_try rt env request requestId w)
         = Ok (stream_response text model requestId)))).
Proof.
  destruct (chatCompletions_try rt env request requestId w) as [res w'] eqn:Htry.
  cbn [fst snd]. revert Htry.
  unfold chatCompletions_try, bind at 1, lift at 1.
  destruct (request_json request) as [body | e];
    [| intros [= <- <-]; right; left; eauto].
  unfold bind at 1, lift at 1.
  destruct (member body f_messages) as [bm | e];
    [| intros [= <- <-]; right; left; eauto].
  unfold bind at 1, lift at 1.
  destruct (find_last_user _) as [lastMsg | e];
    [| intros [= <- <-]; right; left; eauto].
  destruct (truthy lastMsg); cbn [negb];
    [| intros [= <- <-]; left; reflexivity].
  unfold chatCompletions_forward, bind at 1, lift at 1.
  destruct (member lastMsg f_content) as [prompt | e];
    [| intros [= <- <-]; right; left; eauto].
  unfold bind at 1, lift at 1.
  destruct (member body f_model) as [bmodel | e];
    [| intros [= <- <-]; right; left; eauto].
  unfold bind at 1, lift at 1, ToPropertyKey.
  destruct (unconvertible _);
    [intros [= <- <-]; right; left; eauto |].
  unfold bind at 1, crypto_randomUUID at 1, bind at 1, fetch at 1.
  cbn [clock_reads uuid_draws outbound console sink closed]. cbv beta.
  intros Htry. right; right.
  match type of Htry with
  | context [upstream env ?c] => exists c; set (call := c) in *
  end.
  fold (called call w) in Htry.
  destruct (upstream env call) as [response | e].
  - destruct (answer_outcome body (js_or bmodel (VStr DEFAULT_MODEL)) response
                requestId (called call w)) as (n & Hw & Hres).
    rewrite Htry in Hw, Hres. cbn [fst snd] in Hw, Hres.
    exists n. split; [exact Hw |]. split; [reflexivity |].
    split; [eexists; reflexivity |].
    destruct Hres as [[e He] | [[text Ht] | [text Ht]]]; eauto 10.
  - injection Htry as <- <-. exists 0.
    split; [destruct w; unfold ticked, called; cbn; now rewrite Nat.add_0_r |].
    split; [reflexivity |]. split; [eexists; reflexivity |]. left; eauto.
Qed.

End ChatOutcome.

Section ChatBoundary.

Variable rt : Runtime.
Variable env : Env.

(** Every chat request ends in one of four ways. *)
Lemma handleChatCompletions_outcome (request : Request) (requestId : string)
    (w : World) :
  exists (response : Response) (w' : World),
    handleChatCompletions rt env request requestId w = (Ok response, w') /\
    ((response = invalid_request /\ w' = w) \/
     (exists msg, response = generation_failed msg /\ w' = logged msg w) \/
     (exists msg call n,
        response = generation_failed msg /\
        w' = logged msg (ticked n (called call w)) /\ upstream_post call) \/
     (exists call n,
        w' = ticked n (called call w) /\ upstream_post call /\
        ((exists created model text,
            response = completion_response requestId created model text) \/
         (exists model text, response = stream_response text model requestId)))).
Proof.
  unfold handleChatCompletions, try_catch.
  destruct (chatCompletions_try_outcome rt env request requestId w)
    as [Hnone | [[e He] | (call & n & Hw & Hpost & Hurl & Hres)]].
  - rewrite Hnone. do 2 eexists. split; [reflexivity | left; auto].
  - rewrite He. do 2 eexists. split; [reflexivity |].
    right; left. exists (message rt e). split; reflexivity.
  - destruct (chatCompletions_try rt env request requestId w) as [res w1].
    cbn [fst snd] in Hw, Hres. subst w1.
    destruct Hres as [[e ->] | [(created & model & text & ->) | (model & text & ->)]].
    + do 2 eexists. split; [reflexivity |].
      right; right; left. exists (message rt e), call, n.
      split; [reflexivity | split; [reflexivity | split; assumption]].
    + do 2 eexists. split; [reflexivity |].
      right; right; right. exists call, n.
      split; [reflexivity | split; [split; assumption | left; eauto]].
    + do 2 eexists. split; [reflexivity |].
      right; right; right. exists call, n.
      split; [reflexivity | split; [split; assumption | right; eauto]].
Qed.

End ChatBoundary.



(* ------------------------------------------------------------------ *)
(** * The server as a whole                                             *)
(* ------------------------------------------------------------------ *)

Lemma authCheck_rejections (env : Env) (request : Request) (rejection : Response) :
  authCheck env request = Some rejection ->
  rejection = unauthorized \/ rejection = invalid_api_key.
Proof.
  unfold authCheck.
  destruct (negb _ && negb _); [| discriminate].
  destruct (authorization request) as [h |]; [| intros [= <-]; now left].
  destruct ((h =? EmptyString) || negb (startsWith h "Bearer "));
    [intros [= <-]; now left |].
  destruct (negb _); [intros [= <-]; now right | discriminate].
Qed.

Lemma authCheck_passes_iff (env : Env) (request : Request) :
  authCheck env request = None <->
  API_MASTER_KEY (process_env_API_MASTER_KEY env) = "1" \/
  authorization request
  = Some ("Bearer " ++ API_MASTER_KEY (process_env_API_MASTER_KEY env)).
Proof.
  set (apiKey := API_MASTER_KEY (process_env_API_MASTER_KEY env)).
  destruct (string_dec apiKey "1") as [Hopen | Hkey].
  - split; [now left | intros _; now apply authCheck_open].
  - rewrite (authCheck_guarded env request Hkey). fold apiKey. split.
    + intros H. right.
      destruct (authorization request) as [h |]; [| discriminate H].
      destruct (startsWith h "Bearer ") eqn:Hprefix; [| discriminate H].
      destruct (substring_from h 7 =? apiKey) eqn:Htoken; [| discriminate H].
      apply String.eqb_eq in Htoken. rewrite <- Htoken. f_equal.
      exact (startsWith_split h "Bearer " Hprefix).
    + intros [Hopen | ->]; [contradiction |].
      rewrite bearer_startsWith, bearer_token, String.eqb_refl. reflexivity.
Qed.

Section ServeFacts.

Variable rt : Runtime.
Variable env : Env.

(** Every request gets a response of one of three kinds: the preflight
    answer, a 200 response, or an error envelope whose code goes with its
    status. *)
Lemma serve_shapes (request : Request) (w : World) :
  exists (response : Response) (w' : World),
    serve rt env request w = (Ok response, w') /\
    (response = handleCorsPreflight \/
     (exists hs b, response = {| status := 200; headers := corsHeaders hs; body := b |}) \/
     (exists msg st code,
        response = createErrorResponse msg st code /\ error_code st = Some code)).
Proof.
  unfold serve.
  destruct (method request =? "OPTIONS").
  { do 2 eexists. split; [reflexivity | now left]. }
  destruct (pathname request =? "/").
  { do 2 eexists. split; [reflexivity | right; left; do 2 eexists; reflexivity]. }
  destruct (startsWith (pathname request) "/v1/");
    [| do 2 eexists; split; [reflexivity | right; right; do 3 eexists; split; reflexivity]].
  unfold handleApi.
  destruct (authCheck env request) as [rejection |] eqn:Hauth.
  { destruct (authCheck_rejections env request rejection Hauth) as [-> | ->];
      do 2 eexists; (split; [reflexivity |]); right; right;
      do 3 eexists; split; reflexivity. }
  unfold bind at 1, crypto_randomUUID at 1.
  destruct (pathname request =? "/v1/models").
  { do 2 eexists. split; [reflexivity | right; left; do 2 eexists; reflexivity]. }
  destruct (pathname request =? "/v1/chat/completions");
    [| do 2 eexists; split; [reflexivity | right; right; do 3 eexists; split; reflexivity]].
  match goal with
  | |- context [handleChatCompletions rt env request ?rid ?w1] =>
      destruct (handleChatCompletions_outcome rt env request rid w1)
        as (response & w' & Hrun & Hcases)
  end.
  exists response, w'. split; [exact Hrun |].
  destruct Hcases as [[-> _] | [(msg & -> & _) | [(msg & call & n & -> & _)
                     | (call & n & _ & _ & Hresp)]]].
  - right; right. do 3 eexists. split; reflexivity.
  - right; right. do 3 eexists. split; reflexivity.
  - right; right. do 3 eexists. split; reflexivity.
  - right; left.
    destruct Hresp as [(c & m & t & ->) | (m & t & ->)]; do 2 eexists; reflexivity.
Qed.

End ServeFacts.

(** The server never raises: every request gets a response, whose status is
    200, 204, 400, 401, 403, 404 or 500; and every response with an error
    status is the uniform envelope [{ error: { message, type: "api_error",
    code } }] with the code that goes with the status: invalid_request,
    unauthorized, invalid_api_key, not_found, generation_failed. *)
Theorem serve_error_envelope (rt : Runtime) (env : Env) (request : Request) (w : World) :
  exists (response : Response) (w' : World),
    serve rt env request w = (Ok response, w') /\
    (status response = 200 \/ status response = 204 \/
     exists msg code,
       error_code (status response) = Some code /\
       response = createErrorResponse msg (status response) code)%Z.
Proof.
  destruct (serve_shapes rt env request w)
    as (response & w' & Hrun & [-> | [(hs & b & ->) | (msg & st & code & -> & Hcode)]]).
  - do 2 eexists. split; [exact Hrun |]. right; left; reflexivity.
  - do 2 eexists. split; [exact Hrun |]. left; reflexivity.
  - do 2 eexists. split; [exact Hrun |]. right; right.
    exists msg, code. cbn [status createErrorResponse].
    split; [exact Hcode | reflexivity].
Qed.

(** Every response of the server, errors and preflight included, carries the
    three CORS headers. *)
Theorem serve_cors_headers (rt : Runtime) (env : Env) (request : Request) (w : World) :
  exists (response : Response) (w' : World),
    serve rt env request w = (Ok response, w') /\ carries_cors response.
Proof.
  assert (Hcors : forall hs st b,
            carries_cors {| status := st; headers := corsHeaders hs; body := b |}).
  { intros hs st b. unfold carries_cors, corsHeaders. cbn [headers].
    repeat split; apply in_or_app; right; cbn; auto. }
  destruct (serve_shapes rt env request w)
    as (response & w' & Hrun & [-> | [(hs & b & ->) | (msg & st & code & -> & _)]]);
    do 2 eexists; (split; [exact Hrun |]); apply Hcors.
Qed.

(** The server turns a request down for auth (401 or 403) exactly when the
    request is not a preflight, its path is under /v1/, a master key other
    than "1" is configured, and the Authorization header is not "Bearer "
    followed by that key.  Preflights, the health check and unknown paths
    outside /v1/ never need a token. *)
Theorem serve_rejects_iff (rt : Runtime) (env : Env) (request : Request) (w : World) :
  exists (response : Response) (w' : World),
    serve rt env request w = (Ok response, w') /\
    (rejected_for_auth response <->
     method request <> "OPTIONS" /\
     startsWith (pathname request) "/v1/" = true /\
     API_MASTER_KEY (process_env_API_MASTER_KEY env) <> "1" /\
     authorization request
     <> Some ("Bearer " ++ API_MASTER_KEY (process_env_API_MASTER_KEY env))).
Proof.
  assert (Hnot : forall r : Response,
            (status r = 200 \/ status r = 204 \/ status r = 404)%Z ->
            ~ rejected_for_auth r).
  { intros r Hr [H | H]; rewrite H in Hr; destruct Hr as [? | [? | ?]]; discriminate. }
  unfold serve.
  destruct (method request =? "OPTIONS") eqn:Hmethod.
  { apply String.eqb_eq in Hmethod. do 2 eexists. split; [reflexivity |]. split.
    - intros H. exfalso. revert H. apply Hnot. right; left; reflexivity.
    - intros (H & _). contradiction. }
  apply String.eqb_neq in Hmethod.
  destruct (pathname request =? "/") eqn:Hroot.
  { apply String.eqb_eq in Hroot. do 2 eexists. split; [reflexivity |]. split.
    - intros H. exfalso. revert H. apply Hnot. left; reflexivity.
    - intros (_ & H & _). rewrite Hroot in H. discriminate H. }
  destruct (startsWith (pathname request) "/v1/") eqn:Hv1.
  - destruct (authCheck env request) as [rejection |] eqn:Hauth.
    + rewrite (handleApi_rejects rt env request w rejection Hauth).
      do 2 eexists. split; [reflexivity |]. split.
      * intros _. split; [exact Hmethod | split; [reflexivity |]].
        assert (Hno : ~ authCheck env request = None) by (rewrite Hauth; discriminate).
        rewrite authCheck_passes_iff in Hno. tauto.
      * intros _.
        destruct (authCheck_rejections env request rejection Hauth) as [-> | ->];
          [left | right]; reflexivity.
    + destruct (handleApi_passes rt env request w Hauth) as (response & w' & Hrun & Hpass).
      exists response, w'. split; [exact Hrun |]. split; [contradiction |].
      intros (_ & _ & Hkey & Hheader). exfalso.
      apply authCheck_passes_iff in Hauth. tauto.
  - do 2 eexists. split; [reflexivity |]. split.
    + intros H. exfalso. revert H. apply Hnot. right; right; reflexivity.
    + intros (_ & H & _). discriminate H.
Qed.

(** Apart from the preflight, the server never looks at the HTTP method:
    two requests that are not preflights and agree on path, Authorization
    header and body are answered alike. *)
Theorem serve_ignores_method (rt : Runtime) (env : Env) (r1 r2 : Request) (w : World) :
  method r1 <> "OPTIONS" ->
  method r2 <> "OPTIONS" ->
  pathname r1 = pathname r2 ->
  authorization r1 = authorization r2 ->
  request_json r1 = request_json r2 ->
  serve rt env r1 w = serve rt env r2 w.
Proof.
  intros H1 H2 Hpath Hauth Hjson.
  apply String.eqb_neq in H1, H2.
  unfold serve, handleApi, authCheck, handleChatCompletions, chatCompletions_try.
  rewrite H1, H2, Hpath, Hauth, Hjson. reflexivity.
Qed.

Lemma serve_ignores_method_witness :
  method (hello_request []) <> "OPTIONS" /\
  method {| method := "PUT"; pathname := "/v1/chat/completions";
            authorization := None;
            request_json := Ok (VObj (hello_props [])) |} <> "OPTIONS" /\
  serve sample_runtime steady_env (hello_request []) fresh
  = serve sample_runtime steady_env
      {| method := "PUT"; pathname := "/v1/chat/completions";
         authorization := None;
         request_json := Ok (VObj (hello_props [])) |} fresh.
Proof.
  assert (H1 : method (hello_request []) <> "OPTIONS") by discriminate.
  assert (H2 : method {| method := "PUT"; pathname := "/v1/chat/completions";
                         authorization := None;
                         request_json := Ok (VObj (hello_props [])) |} <> "OPTIONS")
    by discriminate.
  split; [exact H1 | split; [exact H2 |]].
  exact (serve_ignores_method sample_runtime steady_env _ _ fresh H1 H2
           eq_refl eq_refl eq_refl).
Defined.

(** Auth is switched off, for every request, exactly when the environment
    variable API_MASTER_KEY is unset, empty, or "1". *)
Theorem auth_disabled_iff (env : Env) :
  (forall request : Request, authCheck env request = None) <->
  process_env_API_MASTER_KEY env = None \/
  process_env_API_MASTER_KEY env = Some EmptyString \/
  process_env_API_MASTER_KEY env = Some "1".
Proof.
  split.
  - intros Hopen.
    destruct (string_dec (API_MASTER_KEY (process_env_API_MASTER_KEY env)) "1")
      as [Hone | Hkey].
    + destruct (process_env_API_MASTER_KEY env) as [k |]; [| now left].
      right. cbn [API_MASTER_KEY] in Hone.
      destruct (k =? EmptyString) eqn:Hk.
      * left. f_equal. now apply String.eqb_eq.
      * right. now f_equal.
    + specialize (Hopen (models_request None)).
      rewrite (authCheck_guarded env _ Hkey) in Hopen. discriminate Hopen.
  - intros Hcfg request. apply authCheck_open.
    destruct Hcfg as [-> | [-> | ->]]; reflexivity.
Qed.

Lemma auth_disabled_iff_witness :
  process_env_API_MASTER_KEY steady_env = None /\
  authCheck steady_env (models_request (Some "anything")) = None.
Proof.
  split; [reflexivity |].
  exact (proj2 (auth_disabled_iff steady_env) (or_introl eq_refl)
           (models_request (Some "anything"))).
Defined.

(* ------------------------------------------------------------------ *)
(** * GET /v1/models                                                    *)
(* ------------------------------------------------------------------ *)

(** The callback of [Object.keys(...).map(...)], run over any list of keys:
    one entry per key, in order, one reading of the clock each. *)
Lemma models_data (env : Env) (keys : list string) (w : World) :
  exists data : list value,
    mapM (fun modelId =>
            created <- epoch_seconds env ;;
            ret (VObj [("id", VStr modelId); ("object", VStr "model");
                       ("created", VNum created);
                       ("owned_by", VStr "teleprompt-bun")])) keys w
    = (Ok data, ticked (List.length keys) w) /\
    List.length data = List.length keys /\
    forall (j : nat) (k : string),
      nth_error keys j = Some k ->
      nth_error data j
      = Some (model_entry k (Date_now env (clock_reads w + j) / 1000)).
Proof.
  revert w. induction keys as [| key keys IH]; intros w.
  - exists []. cbn [mapM List.length]. unfold ret.
    split; [| split; [reflexivity | intros [| j] k H; discriminate H]].
    f_equal. destruct w. unfold ticked. cbn. now rewrite Nat.add_0_r.
  - destruct (IH (ticked 1 w)) as (data & Hrun & Hlen & Hnth).
    exists (model_entry key (Date_now env (clock_reads w) / 1000) :: data).
    split; [| split].
    + cbn [mapM]. unfold bind at 1. unfold bind at 1, epoch_seconds at 1, bind at 1,
        date_now at 1, ret at 1, ret at 1.
      cbv beta iota.
      replace {| clock_reads := S (clock_reads w); uuid_draws := uuid_draws w;
                 outbound := outbound w; console := console w;
                 sink := sink w; closed := closed w |}
        with (ticked 1 w)
        by (unfold ticked; now rewrite Nat.add_1_r).
      unfold bind at 1. rewrite Hrun. unfold ret. f_equal.
      unfold ticked. cbn. f_equal. lia.
    + cbn [List.length]. now rewrite Hlen.
    + intros [| j] k H; cbn [nth_error] in *.
      * injection H as <-. now rewrite Nat.add_0_r.
      * rewrite (Hnth j k H). cbn [clock_reads ticked].
        replace (clock_reads w + 1 + j) with (clock_reads w + S j) by lia.
        reflexivity.
Qed.

(** GET /v1/models answers 200 with a list that has one entry per
    registered model id, in the order of the registry; every entry has
    object "model" and owned_by "teleprompt-bun", and the [j]-th entry is
    stamped with the second of the [j]-th clock reading.  The handler makes
    no upstream call and draws no random value. *)
Theorem models_listing (env : Env) (w : World) :
  exists data : list value,
    handleModelsRequest env w
    = (Ok {| status := 200;
             headers := corsHeaders [("Content-Type", "application/json; charset=utf-8")];
             body := BodyJson (VObj [("object", VStr "list"); ("data", VArr data)]) |},
       ticked (List.length MODEL_MAP) w) /\
    map (fun d => prop d "id") data = map (fun kv => VStr (fst kv)) MODEL_MAP /\
    Forall (fun d => prop d "object" = VStr "model" /\
                     prop d "owned_by" = VStr "teleprompt-bun") data /\
    (forall (j : nat) (d : value),
       nth_error data j = Some d ->
       prop d "created" = VNum (Date_now env (clock_reads w + j) / 1000)).
Proof.
  destruct (models_data env (map fst MODEL_MAP) w) as (data & Hrun & Hlen & Hnth).
  exists data. split; [| split; [| split]].
  - unfold handleModelsRequest, bind at 1. rewrite Hrun. reflexivity.
  - apply nth_error_ext. intros j.
    rewrite !nth_error_map.
    destruct (nth_error (map fst MODEL_MAP) j) as [k |] eqn:Hk.
    + rewrite (Hnth j k Hk). rewrite nth_error_map in Hk.
      destruct (nth_error MODEL_MAP j) as [kv |]; [| discriminate Hk].
      injection Hk as <-. reflexivity.
    + assert (Hd : nth_error data j = None).
      { apply nth_error_None. rewrite Hlen. now apply nth_error_None. }
      rewrite Hd. rewrite nth_error_map in Hk.
      destruct (nth_error MODEL_MAP j); [discriminate Hk | reflexivity].
  - apply Forall_forall. intros d Hin. apply In_nth_error in Hin as [j Hj].
    destruct (nth_error (map fst MODEL_MAP) j) as [k |] eqn:Hk.
    + rewrite (Hnth j k Hk) in Hj. injection Hj as <-. split; reflexivity.
    + exfalso. apply nth_error_None in Hk. rewrite <- Hlen in Hk.
      apply nth_error_None in Hk. rewrite Hk in Hj. discriminate Hj.
  - intros j d Hj.
    destruct (nth_error (map fst MODEL_MAP) j) as [k |] eqn:Hk.
    + rewrite (Hnth j k Hk) in Hj. injection Hj as <-. reflexivity.
    + exfalso. apply nth_error_None in Hk. rewrite <- Hlen in Hk.
      apply nth_error_None in Hk. rewrite Hk in Hj. discriminate Hj.
Qed.

Lemma registered_entry (rt : Runtime) (modelId path : string) :
  In (modelId, VStr path) MODEL_MAP ->
  resolveEndpoint rt (VStr modelId) = VStr path /\ modelId <> EmptyString.
Proof.
  intros Hin. unfold resolveEndpoint. rewrite ToString_string. cbn in Hin.
  destruct Hin as [[= <- <-] | [[= <- <-] | [[= <- <-] | []]]];
    (split; [reflexivity | discriminate]).
Qed.

(** The registry and the resolution agree: every registered model id
    resolves to its own endpoint, never to the fallback, and two different
    ids never share an endpoint. *)
Theorem registered_models_resolve (rt : Runtime) (modelId path : string) :
  In (modelId, VStr path) MODEL_MAP ->
  resolveEndpoint rt (VStr modelId) = VStr path /\
  (forall modelId', In (modelId', VStr path) MODEL_MAP -> modelId' = modelId).
Proof.
  intros Hin. split; [exact (proj1 (registered_entry rt modelId path Hin)) |].
  intros modelId' Hin'. cbn in Hin, Hin'.
  destruct Hin as [[= <- <-] | [[= <- <-] | [[= <- <-] | []]]];
    destruct Hin' as [H | [H | [H | []]]];
    first [ injection H as <-; reflexivity | discriminate H ].
Qed.

Lemma registered_models_resolve_witness :
  In ("teleprompt-apps", VStr "/api/v1/prompt/optimize_apps_auth") MODEL_MAP /\
  resolveEndpoint sample_runtime (VStr "teleprompt-apps")
  = VStr "/api/v1/prompt/optimize_apps_auth".
Proof.
  assert (Hin : In ("teleprompt-apps", VStr "/api/v1/prompt/optimize_apps_auth") MODEL_MAP)
    by (right; right; left; reflexivity).
  split; [exact Hin |].
  exact (proj1 (registered_models_resolve sample_runtime "teleprompt-apps"
                  "/api/v1/prompt/optimize_apps_auth" Hin)).
Defined.

(* ------------------------------------------------------------------ *)
(** * More about the stream                                             *)
(* ------------------------------------------------------------------ *)

Lemma substring_length (s : string) (n m : nat) :
  String.length (substring n m s) = Nat.min m (String.length s - n).
Proof.
  revert n m. induction s as [| c s IH]; intros n m.
  - destruct n, m; reflexivity.
  - destruct n as [| n]; simpl.
    + destruct m as [| m]; simpl; [reflexivity |].
      rewrite (IH 0 m). now rewrite Nat.sub_0_r.
    + apply IH.
Qed.

Lemma ceil_div_bounds (r j : nat) :
  j < ceil_div r chunkSize -> chunkSize * j < r.
Proof.
  unfold ceil_div, chunkSize. intros H.
  destruct (Nat.le_gt_cases r (2 * j)) as [Hle | Hgt]; [| exact Hgt].
  exfalso. apply (Nat.lt_irrefl j). eapply Nat.lt_le_trans; [exact H |].
  apply Nat.lt_succ_r. apply Nat.Div0.div_lt_upper_bound. lia.
Qed.

Lemma ceil_div_inner (r j : nat) :
  S j < ceil_div r chunkSize -> chunkSize * j + chunkSize <= r.
Proof.
  intros H. apply ceil_div_bounds in H. unfold chunkSize in *. lia.
Qed.

Section StreamSlices.

Variable env : Env.
Variables (text : string) (model : value) (requestId : string).

(** With the client connected, the [j]-th chunk written by the loop started
    at [i] carries the slice that begins [chunkSize * j] further on. *)
Lemma streamLoop_slices :
  connected env ->
  forall (n i : nat) (w : World),
    String.length text - i <= n ->
    exists (chunks : list value) (contents : list string),
      streamLoop env text model requestId i w =
        (Ok tt,
         {| clock_reads := clock_reads w + List.length chunks;
            uuid_draws := uuid_draws w; outbound := outbound w;
            console := console w;
            sink := (sink w ++ map SseJson chunks)%list;
            closed := closed w |}) /\
      Forall2 content_bearing chunks contents /\
      List.length contents = ceil_div (String.length text - i) chunkSize /\
      forall j : nat,
        j < List.length contents ->
        nth j contents EmptyString
        = slice text (i + chunkSize * j) (i + chunkSize * j + chunkSize).
Proof.
  intros Hconn. induction n as [| n IH]; intros i w Hn.
  - exists [], []. rewrite streamLoop_exit by lia.
    replace (String.length text - i) with 0 by lia.
    cbn -[ceil_div]. rewrite Nat.add_0_r, app_nil_r. unfold ret.
    destruct w; repeat split; try constructor. intros j Hj. inversion Hj.
  - destruct (lt_dec i (String.length text)) as [Hlt | Hge].
    + destruct (IH (i + chunkSize)
                  {| clock_reads := S (clock_reads w); uuid_draws := uuid_draws w;
                     outbound := outbound w; console := console w;
                     sink := (sink w ++ [SseJson
                               (contentChunk requestId
                                  (Date_now env (clock_reads w) / 1000) model
                                  (slice text i (i + chunkSize)))])%list;
                     closed := closed w |})
        as (chunks & contents & Hrun & Hcb & Hlen & Hnth); [unfold chunkSize; lia |].
      exists (contentChunk requestId (Date_now env (clock_reads w) / 1000) model
                (slice text i (i + chunkSize)) :: chunks),
             (slice text i (i + chunkSize) :: contents).
      split; [| split; [| split]].
      * rewrite streamLoop_step by assumption.
        unfold bind, epoch_seconds, date_now, ret, sleep, writer_write.
        cbn -[streamLoop Z.div slice contentChunk ceil_div].
        rewrite Hconn, Hrun.
        cbn [clock_reads uuid_draws outbound console sink closed].
        f_equal. f_equal.
        -- simpl. lia.
        -- rewrite <- app_assoc. reflexivity.
      * constructor; [apply contentChunk_content_bearing | exact Hcb].
      * cbn [List.length]. rewrite Hlen.
        rewrite (ceil_div_step (String.length text - i)) by lia.
        f_equal. f_equal. unfold chunkSize. lia.
      * intros [| j] Hj; cbn [nth].
        -- now rewrite Nat.mul_0_r, Nat.add_0_r.
        -- cbn [List.length] in Hj. rewrite (Hnth j) by lia.
           f_equal; unfold chunkSize; lia.
    + exists [], []. rewrite streamLoop_exit by assumption.
      replace (String.length text - i) with 0 by lia.
      cbn -[ceil_div]. rewrite Nat.add_0_r, app_nil_r. unfold ret.
      destruct w; repeat split; try constructor. intros j Hj. inversion Hj.
Qed.

End StreamSlices.

(** With the client connected, the [j]-th content chunk of the stream for
    [T] carries exactly [T.slice(2j, 2j + 2)]: every chunk but the last has
    two code units, the last has one or two, and none is empty. *)
Theorem stream_slices (env : Env) (T : string) (model : value)
    (requestId : string) (w : World) :
  connected env ->
  sink w = [] ->
  exists (chunks : list value) (contents : list string) (last : value),
    sink (snd (streamTask env T model requestId w))
    = (map SseJson chunks ++ [SseJson last; SseText DONE])%list /\
    Forall2 content_bearing chunks contents /\
    terminal last /\
    List.length contents = ceil_div (String.length T) chunkSize /\
    (forall j : nat, j < List.length contents ->
       nth j contents EmptyString = slice T (chunkSize * j) (chunkSize * j + chunkSize) /\
       1 <= String.length (nth j contents EmptyString) <= chunkSize) /\
    (forall j : nat, S j < List.length contents ->
       String.length (nth j contents EmptyString) = chunkSize).
Proof.
  intros Hconn Hempty.
  destruct (streamLoop_slices env T model requestId Hconn (String.length T) 0 w
              ltac:(lia)) as (chunks & contents & Hrun & Hcb & Hlen & Hnth).
  rewrite Nat.sub_0_r in Hlen.
  exists chunks, contents,
    (endChunk requestId (Date_now env (clock_reads w + List.length chunks) / 1000) model).
  assert (Hslice : forall j, j < List.length contents ->
            nth j contents EmptyString
            = substring (chunkSize * j) chunkSize T).
  { intros j Hj. rewrite (Hnth j Hj). unfold slice. cbn [Nat.add]. f_equal. lia. }
  split; [| split; [exact Hcb | split; [apply endChunk_terminal | split; [exact Hlen |]]]].
  - unfold streamTask, try_finally, try_catch.
    unfold bind, epoch_seconds, date_now, ret, writer_write, writer_close.
    cbn -[streamLoop Z.div endChunk DONE]. rewrite Hrun.
    cbn -[Z.div endChunk DONE]. rewrite !Hconn.
    cbn -[Z.div endChunk DONE]. rewrite ?Hconn.
    cbn [snd sink]. rewrite Hempty, <- !app_assoc. reflexivity.
  - split.
    + intros j Hj. split; [exact (Hnth j Hj) |].
      rewrite (Hslice j Hj), substring_length.
      rewrite Hlen in Hj. apply ceil_div_bounds in Hj. unfold chunkSize in *. lia.
    + intros j Hj.
      rewrite (Hslice j) by lia. rewrite substring_length.
      rewrite Hlen in Hj. apply ceil_div_inner in Hj. unfold chunkSize in *. lia.
Qed.

Lemma stream_slices_witness :
  connected steady_env /\
  sink fresh = [] /\
  exists (chunks : list value) (contents : list string) (last : value),
    sink (snd (streamTask steady_env "Hello" (VStr DEFAULT_MODEL) "req-1" fresh))
    = (map SseJson chunks ++ [SseJson last; SseText DONE])%list /\
    Forall2 content_bearing chunks contents /\
    List.length contents = 3.
Proof.
  assert (Hconn : connected steady_env) by (intros k; reflexivity).
  split; [exact Hconn | split; [reflexivity |]].
  destruct (stream_slices steady_env "Hello" (VStr DEFAULT_MODEL) "req-1" fresh
              Hconn eq_refl)
    as (chunks & contents & last & Hsink & Hcb & _ & Hlen & _).
  exists chunks, contents, last. auto.
Defined.

Section StreamFailure.

Variable env : Env.
Variables (text : string) (model : value) (requestId : string).

(** The loop writes one frame after another until a write fails: it
    returns when the writes it needs are all accepted, and stops at the
    first write that is not. *)
Lemma streamLoop_writes :
  forall (n i : nat) (w : World),
    String.length text - i <= n ->
    ((forall j, List.length (sink w) <= j
                < List.length (sink w) + ceil_div (String.length text - i) chunkSize ->
                write_outcome env j = Ok tt) ->
     fst (streamLoop env text model requestId i w) = Ok tt /\
     List.length (sink (snd (streamLoop env text model requestId i w)))
     = List.length (sink w) + ceil_div (String.length text - i) chunkSize /\
     console (snd (streamLoop env text model requestId i w)) = console w) /\
    (forall (k : nat) (e : exn),
       List.length (sink w) <= k
       < List.length (sink w) + ceil_div (String.length text - i) chunkSize ->
       (forall j, List.length (sink w) <= j < k -> write_outcome env j = Ok tt) ->
       write_outcome env k = Throw e ->
       fst (streamLoop env text model requestId i w) = Throw e /\
       List.length (sink (snd (streamLoop env text model requestId i w))) = k /\
       console (snd (streamLoop env text model requestId i w)) = console w).
Proof.
  induction n as [| n IH]; intros i w Hn.
  - rewrite streamLoop_exit by lia.
    replace (String.length text - i) with 0 by lia.
    change (ceil_div 0 chunkSize) with 0. unfold ret. cbn [fst snd].
    split; [intros _; repeat split; lia | intros k e Hk; lia].
  - destruct (lt_dec i (String.length text)) as [Hlt | Hge].
    + rewrite streamLoop_step by assumption.
      rewrite (ceil_div_step (String.length text - i)) by lia.
      replace (String.length text - i - chunkSize)
        with (String.length text - (i + chunkSize)) by lia.
      set (c := ceil_div (String.length text - (i + chunkSize)) chunkSize).
      unfold bind, epoch_seconds, date_now, ret, sleep, writer_write.
      cbn -[streamLoop Z.div slice contentChunk ceil_div].
      destruct (write_outcome env (List.length (sink w))) as [[] | e0] eqn:Hfirst.
      * match goal with
        | |- context [streamLoop env text model requestId (i + chunkSize) ?w1] =>
            destruct (IH (i + chunkSize) w1) as [Hall Hfail];
            [unfold chunkSize; lia |]
        end.
        cbn [sink console] in Hall, Hfail. rewrite length_app in Hall, Hfail.
        cbn [List.length] in Hall, Hfail. fold c in Hall, Hfail.
        split.
        -- intros Hok. destruct Hall as (H1 & H2 & H3).
           { intros j Hj. apply Hok. lia. }
           repeat split; [exact H1 | rewrite H2; lia | exact H3].
        -- intros k e Hk Hbefore Hthrow.
           assert (k <> List.length (sink w)).
           { intros ->. rewrite Hfirst in Hthrow. discriminate Hthrow. }
           apply Hfail; [lia | | exact Hthrow].
           intros j Hj. apply Hbefore. lia.
      * cbn [fst snd]. split.
        -- intros Hok. rewrite Hok in Hfirst by lia. discriminate Hfirst.
        -- intros k e Hk Hbefore Hthrow.
           assert (k = List.length (sink w)) as ->.
           { destruct (Nat.eq_dec k (List.length (sink w))) as [-> | Hne]; [reflexivity |].
             rewrite Hbefore in Hfirst by lia. discriminate Hfirst. }
           rewrite Hfirst in Hthrow. injection Hthrow as ->.
           repeat split.
    + rewrite streamLoop_exit by assumption.
      replace (String.length text - i) with 0 by lia.
      change (ceil_div 0 chunkSize) with 0. unfold ret. cbn [fst snd].
      split; [intros _; repeat split; lia | intros k e Hk; lia].
Qed.

End StreamFailure.

(** Among the writes up to a failing one there is a first failing one. *)
Lemma writes_before (env : Env) (n : nat) :
  (forall i, i < n -> write_outcome env i = Ok tt) \/
  (exists k e, k < n /\ write_outcome env k = Throw e /\
               forall i, i < k -> write_outcome env i = Ok tt).
Proof.
  induction n as [| n [Hall | (k & e & Hk & Hthrow & Hbefore)]].
  - left. intros i Hi. lia.
  - destruct (write_outcome env n) as [[] | e] eqn:Hn.
    + left. intros i Hi.
      destruct (Nat.eq_dec i n) as [-> | Hne]; [exact Hn | apply Hall; lia].
    + right. exists n, e. split; [lia | split; [exact Hn | exact Hall]].
  - right. exists k, e. split; [lia | split; assumption].
Qed.

Lemma first_failure (env : Env) (j : nat) (e : exn) :
  write_outcome env j = Throw e ->
  exists k e', k <= j /\ write_outcome env k = Throw e' /\
               forall i, i < k -> write_outcome env i = Ok tt.
Proof.
  intros Hj.
  destruct (writes_before env j) as [Hall | (k & e' & Hk & Hthrow & Hbefore)].
  - exists j, e. split; [lia | split; assumption].
  - exists k, e'. split; [lia | split; assumption].
Qed.

(** The stream is cut exactly at the first write that fails.  If the [k]-th
    write is the first one refused, among the [ceil (L / 2) + 2] writes of
    the stream for a text of length [L], then exactly the first [k] records
    of the complete stream were written and the error is logged once as
    "Stream write error:"; closing the writer of the errored stream then
    fails, so the writer is left as it was and the task raises.  If none of
    those writes is refused, all [ceil (L / 2) + 2] records are written and
    nothing is logged; the task then returns with the writer closed, or
    raises if the stream has become errored by the time of closing. *)
Theorem stream_cut_at_first_failure (env : Env) (T : string) (model : value)
    (requestId : string) (w : World) :
  sink w = [] ->
  (forall (k : nat) (e : exn),
     k < ceil_div (String.length T) chunkSize + 2 ->
     (forall j, j < k -> write_outcome env j = Ok tt) ->
     write_outcome env k = Throw e ->
     (exists err, fst (streamTask env T model requestId w) = Throw err) /\
     closed (snd (streamTask env T model requestId w)) = closed w /\
     console (snd (streamTask env T model requestId w))
     = (console w ++ [("Stream write error:", Some e)])%list /\
     exists full : list Frame,
       complete_stream T full /\
       sink (snd (streamTask env T model requestId w)) = firstn k full /\
       k < List.length full) /\
  ((forall j, j < ceil_div (String.length T) chunkSize + 2 ->
      write_outcome env j = Ok tt) ->
   console (snd (streamTask env T model requestId w)) = console w /\
   List.length (sink (snd (streamTask env T model requestId w)))
   = ceil_div (String.length T) chunkSize + 2 /\
   (write_outcome env (ceil_div (String.length T) chunkSize + 2) = Ok tt ->
    fst (streamTask env T model requestId w) = Ok tt /\
    closed (snd (streamTask env T model requestId w)) = true) /\
   (forall e, write_outcome env (ceil_div (String.length T) chunkSize + 2) = Throw e ->
    (exists err, fst (streamTask env T model requestId w) = Throw err) /\
    closed (snd (streamTask env T model requestId w)) = closed w)).
Proof.
  intros Hempty.
  remember (ceil_div (String.length T) chunkSize) as c eqn:Hc.
  destruct (streamTask_prefix env T model requestId w)
    as (full & k' & Hfull & Hsink).
  rewrite Hempty in Hsink. cbn [app] in Hsink.
  assert (Hlenfull : List.length full = c + 2).
  { destruct Hfull as (chunks & contents & last & -> & _ & _ & Hlen & _).
    rewrite length_app, length_map, Hlen, Hc. reflexivity. }
  destruct (streamLoop_writes env T model requestId (String.length T) 0 w ltac:(lia))
    as [Hall Hfail].
  rewrite Hempty, Nat.sub_0_r in Hall, Hfail. cbn [List.length Nat.add] in Hall, Hfail.
  rewrite <- Hc in Hall, Hfail.
  (* the [finally] adds its own outcome to what the attempt did *)
  rewrite streamTask_attempt in *.
  destruct (close_keeps env (streamAttempt env T model requestId) w) as (Hks & Hkc & _).
  destruct (close_result env (streamAttempt env T model requestId) w) as [Hclose Herrored].
  pose proof (streamAttempt_closed env T model requestId w) as Hopen.
  rewrite Hks in Hsink |- *. rewrite Hkc.
  pose proof (streamAttempt_returns env T model requestId w) as Hreturns.
  (* the length of what was written, and the console, in each case *)
  assert (Hcases :
    (forall (k : nat) (e : exn),
       k < c + 2 ->
       (forall j, j < k -> write_outcome env j = Ok tt) ->
       write_outcome env k = Throw e ->
       List.length (sink (snd (streamAttempt env T model requestId w))) = k /\
       console (snd (streamAttempt env T model requestId w))
       = (console w ++ [("Stream write error:", Some e)])%list) /\
    ((forall j, j < c + 2 -> write_outcome env j = Ok tt) ->
     console (snd (streamAttempt env T model requestId w)) = console w /\
     List.length (sink (snd (streamAttempt env T model requestId w))) = c + 2)).
  { clear Hsink Hks Hkc Hclose Herrored Hopen Hreturns.
    unfold streamAttempt, try_catch.
    unfold bind, epoch_seconds, date_now, ret, writer_write, console_error.
    cbn -[streamLoop Z.div endChunk DONE].
    destruct (streamLoop env T model requestId 0 w) as [[[] | e0] w1] eqn:Hloop;
      cbn [fst snd] in Hall, Hfail.
    - (* the loop returned: its writes were all accepted *)
      assert (Hloop_ok : forall j, j < c -> write_outcome env j = Ok tt).
      { intros j Hj. destruct (write_outcome env j) as [[] | e] eqn:Hj'; [reflexivity |].
        exfalso.
        destruct (first_failure env j e Hj') as (k & e' & Hk & Hthrow & Hbefore).
        destruct (Hfail k e' ltac:(lia)) as [Habs _]; [| exact Hthrow | discriminate Habs].
        intros i Hi. apply Hbefore. lia. }
      destruct Hall as (_ & Hlen1 & Hcon1); [intros j Hj; apply Hloop_ok; lia |].
      rewrite Hlen1.
      destruct (write_outcome env c) as [[] | e1] eqn:Hend.
      + cbn -[Z.div endChunk DONE]. rewrite length_app, Hlen1. cbn [List.length].
        destruct (write_outcome env (c + 1)) as [[] | e2] eqn:Hdone;
          cbn -[Z.div endChunk DONE].
        * split.
          -- intros k e Hk Hbefore Hthrow. exfalso.
             destruct (Nat.lt_ge_cases k c) as [Hlt | Hge].
             ++ rewrite Hloop_ok in Hthrow by assumption. discriminate Hthrow.
             ++ assert (k = c \/ k = c + 1) as [-> | ->] by lia;
                  [rewrite Hend in Hthrow | rewrite Hdone in Hthrow]; discriminate Hthrow.
          -- intros _. split; [exact Hcon1 |].
             rewrite !length_app, Hlen1. cbn [List.length]. lia.
        * split.
          -- intros k e Hk Hbefore Hthrow.
             assert (k = c + 1) as ->.
             { destruct (Nat.lt_ge_cases k c) as [Hlt | Hge].
               - rewrite Hloop_ok in Hthrow by assumption. discriminate Hthrow.
               - assert (k = c \/ k = c + 1) as [-> | ->] by lia; [| reflexivity].
                 rewrite Hend in Hthrow. discriminate Hthrow. }
             rewrite Hdone in Hthrow. injection Hthrow as ->.
             rewrite length_app, Hlen1, Hcon1. cbn [List.length]. split; reflexivity.
          -- intros Hok. rewrite Hok in Hdone by lia. discriminate Hdone.
      + cbn -[Z.div endChunk DONE]. split.
        * intros k e Hk Hbefore Hthrow.
          assert (k = c) as ->.
          { destruct (Nat.lt_ge_cases k c) as [Hlt | Hge].
            - rewrite Hloop_ok in Hthrow by assumption. discriminate Hthrow.
            - destruct (Nat.eq_dec k c) as [-> | Hne]; [reflexivity |].
              rewrite Hbefore in Hend by lia. discriminate Hend. }
          rewrite Hend in Hthrow. injection Hthrow as ->.
          rewrite Hlen1, Hcon1. split; reflexivity.
        * intros Hok. rewrite Hok in Hend by lia. discriminate Hend.
    - (* the loop stopped at a write that failed *)
      cbn. split.
      + intros k e Hk Hbefore Hthrow.
        destruct (Nat.lt_ge_cases k c) as [Hlt | Hge].
        * destruct (Hfail k e ltac:(lia)) as (He & Hlen1 & Hcon1);
            [intros j Hj; apply Hbefore; lia | exact Hthrow |].
          injection He as ->. rewrite Hlen1, Hcon1. split; reflexivity.
        * exfalso. destruct Hall as [Habs _]; [| discriminate Habs].
          intros j Hj. apply Hbefore. lia.
      + intros Hok. exfalso. destruct Hall as [Habs _]; [| discriminate Habs].
        intros j Hj. apply Hok. lia. }
  destruct Hcases as [Hcut Hwhole].
  split.
  - intros k e Hk Hbefore Hthrow.
    destruct (Hcut k e Hk Hbefore Hthrow) as [Hlen Hcon].
    rewrite Hlen in Herrored.
    destruct (Herrored e Hthrow) as [Hraised Hleft].
    split; [eexists; exact Hraised | split; [now rewrite Hleft | split; [exact Hcon |]]].
    exists full. split; [exact Hfull |]. split; [| rewrite Hlenfull; exact Hk].
    rewrite Hsink in Hlen |- *. rewrite length_firstn in Hlen.
    rewrite Hlenfull in Hlen.
    destruct (Nat.le_gt_cases k' (c + 2)) as [Hle | Hgt].
    + rewrite Nat.min_l in Hlen by exact Hle. now subst k'.
    + rewrite Nat.min_r in Hlen by lia. lia.
  - intros Hok.
    destruct (Hwhole Hok) as [Hcon Hlen].
    rewrite Hlen in Hclose, Herrored.
    split; [exact Hcon | split; [exact Hlen | split]].
    + intros Hlast. destruct (Hclose tt Hlast) as [Hres Hclosed].
      split; [now rewrite Hres | exact Hclosed].
    + intros e Hlast. destruct (Herrored e Hlast) as [Hraised Hleft].
      split; [eexists; exact Hraised | now rewrite Hleft].
Qed.

Lemma stream_cut_at_first_failure_witness :
  sink fresh = [] /\
  write_outcome disconnected_env 0 = Throw (JsError "The stream is closed") /\
  (exists err,
     fst (streamTask disconnected_env "Hi" (VStr DEFAULT_MODEL) "req-1" fresh) = Throw err) /\
  console (snd (streamTask disconnected_env "Hi" (VStr DEFAULT_MODEL) "req-1" fresh))
  = [("Stream write error:", Some (JsError "The stream is closed"))] /\
  closed (snd (streamTask disconnected_env "Hi" (VStr DEFAULT_MODEL) "req-1" fresh)) = false.
Proof.
  split; [reflexivity | split; [reflexivity |]].
  destruct (proj1 (stream_cut_at_first_failure disconnected_env "Hi" (VStr DEFAULT_MODEL)
                     "req-1" fresh eq_refl)
              0 (JsError "The stream is closed"))
    as (Hraised & Hclosed & Hconsole & _).
  - vm_compute. lia.
  - intros j Hj. lia.
  - reflexivity.
  - split; [exact Hraised | split; [exact Hconsole | exact Hclosed]].
Defined.

Lemma Forall_first (A : Type) (P : A -> Prop) (k : nat) (l : list A) :
  Forall P l -> Forall P (firstn k l).
Proof.
  intros H. revert k. induction H as [| x l Hx _ IH]; intros [| k]; cbn; auto.
Qed.

(** Whatever the client does, every record the task writes is a server-sent
    event record on the wire: the text "data: ", a payload, and two line
    feeds. *)
Theorem stream_wire_records (rt : Runtime) (env : Env) (T : string) (model : value)
    (requestId : string) (w : World) :
  exists new : list Frame,
    sink (snd (streamTask env T model requestId w)) = (sink w ++ new)%list /\
    Forall (fun f => sse_record (frame_text rt f)) new.
Proof.
  destruct (streamTask_prefix env T model requestId w)
    as (full & k & Hfull & Hsink).
  exists (firstn k full). split; [exact Hsink |].
  apply Forall_first.
  destruct Hfull as (chunks & contents & last & -> & _).
  apply Forall_app. split.
  - apply Forall_forall. intros f Hin. apply in_map_iff in Hin as (c & <- & _).
    exists (JSON_stringify rt c). reflexivity.
  - constructor; [exists (JSON_stringify rt last); reflexivity |].
    constructor; [exists "[DONE]"; reflexivity | constructor].
Qed.

(** Under a clock that never goes back, the created timestamps of the
    chunks of a response never decrease in the order of emission. *)
Theorem stream_created_monotone (env : Env) (T : string) (model : value)
    (requestId : string) (w : World) :
  monotone_clock env ->
  exists new : list Frame,
    sink (snd (streamTask env T model requestId w)) = (sink w ++ new)%list /\
    forall (j1 j2 : nat) (p1 p2 : value) (c1 c2 : Z),
      j1 <= j2 ->
      nth_error new j1 = Some (SseJson p1) ->
      nth_error new j2 = Some (SseJson p2) ->
      prop p1 "created" = VNum c1 ->
      prop p2 "created" = VNum c2 ->
      (c1 <= c2)%Z.
Proof.
  intros Hmono.
  destruct (streamTask_stamped env T model requestId w) as (new & Hsink & Hst).
  exists new. split; [exact Hsink |].
  intros j1 j2 p1 p2 c1 c2 Hle H1 H2 Hc1 Hc2.
  destruct (Hst j1 p1 H1) as (_ & _ & Hs1).
  destruct (Hst j2 p2 H2) as (_ & _ & Hs2).
  rewrite Hs1 in Hc1. rewrite Hs2 in Hc2.
  injection Hc1 as <-. injection Hc2 as <-.
  apply Z.div_le_mono; [lia |]. apply Hmono. lia.
Qed.

Lemma stream_created_monotone_witness :
  monotone_clock ticking_env /\
  exists new : list Frame,
    sink (snd (streamTask ticking_env "abcd" (VStr DEFAULT_MODEL) "req-1" fresh)) = new /\
    forall (p1 p2 : value) (c1 c2 : Z),
      nth_error new 0 = Some (SseJson p1) ->
      nth_error new 1 = Some (SseJson p2) ->
      prop p1 "created" = VNum c1 ->
      prop p2 "created" = VNum c2 ->
      (c1 <= c2)%Z.
Proof.
  assert (Hmono : monotone_clock ticking_env).
  { intros a b Hab. cbn [Date_now ticking_env]. unfold STREAM_DELAY. lia. }
  split; [exact Hmono |].
  destruct (stream_created_monotone ticking_env "abcd" (VStr DEFAULT_MODEL) "req-1" fresh
              Hmono) as (new & Hsink & Hord).
  exists new. split; [exact Hsink |].
  intros p1 p2 c1 c2. apply (Hord 0 1). lia.
Defined.

(* ------------------------------------------------------------------ *)
(** * A chat request, from the dispatcher to the upstream               *)
(* ------------------------------------------------------------------ *)

Lemma handleApi_chat (rt : Runtime) (env : Env) (request : Request) (w : World) :
  authCheck env request = None ->
  pathname request = "/v1/chat/completions" ->
  handleApi rt env request w =
  handleChatCompletions rt env request ("req-" ++ randomUUID env (uuid_draws w)) (drawn w).
Proof.
  intros Hauth Hpath. unfold handleApi. rewrite Hauth, Hpath. reflexivity.
Qed.

(** A chat request for a registered model [M] that passes the auth check
    makes one POST to the upstream origin followed by the endpoint of [M],
    with the text of the latest user message as payload and with the
    identity header [email] set to a fresh random value followed by
    "@anonymous.user": the random draw after the one that names the request.
    When the upstream answer is accepted, the response carries the request
    id "req-<first draw>" and echoes [M]. *)
Theorem registered_model_exchange (rt : Runtime) (env : Env) (request : Request)
    (props : list (string * value)) (ms : list Message) (m : Message)
    (w : World) (M path : string) :
  authCheck env request = None ->
  pathname request = "/v1/chat/completions" ->
  chat_body request props ms ->
  last_user_message ms m ->
  lookup props "model" = VStr M ->
  In (M, VStr path) MODEL_MAP ->
  exists call : FetchCall,
    outbound (snd (handleApi rt env request w)) = (outbound w ++ [call])%list /\
    fetch_method call = "POST" /\
    fetch_url call = UPSTREAM_ORIGIN ++ path /\
    fetch_headers call
    = upstreamHeaders (randomUUID env (S (uuid_draws w)) ++ "@anonymous.user") /\
    fetch_body call = JSON_stringify rt (VObj [("text", VStr (content m))]) /\
    (forall text : value,
       accepted (upstream env call) text ->
       exists response,
         fst (handleApi rt env request w) = Ok response /\
         body response =
           if truthy (lookup props "stream")
           then BodyReadable text (VStr M) ("req-" ++ randomUUID env (uuid_draws w))
           else BodyJson (ChatCompletion ("req-" ++ randomUUID env (uuid_draws w))
                            (Date_now env (clock_reads w) / 1000) (VStr M) text)).
Proof.
  intros Hauth Hpath Hbody Hlast Hmodel Hin.
  destruct (registered_entry rt M path Hin) as [Hresolve Hnonempty].
  assert (Hchosen : chosenModel props = VStr M).
  { unfold chosenModel, js_or. rewrite Hmodel. cbn [truthy].
    apply String.eqb_neq in Hnonempty. now rewrite Hnonempty. }
  assert (Hconv : unconvertible (chosenModel props) = false)
    by (rewrite Hchosen; reflexivity).
  rewrite (handleApi_chat rt env request w Hauth Hpath).
  exists (upstreamCall rt env props m (drawn w)).
  split; [| split; [reflexivity | split; [| split; [reflexivity | split; [reflexivity |]]]]].
  - exact (chat_makes_one_call rt env request _ props ms m (drawn w) Hbody Hlast Hconv).
  - unfold upstreamCall. cbn [fetch_url]. rewrite Hchosen, Hresolve.
    now rewrite ToString_string.
  - intros text Hacc.
    destruct (chat_accepted rt env request ("req-" ++ randomUUID env (uuid_draws w))
                props ms m (drawn w) text Hbody Hlast Hconv Hacc)
      as (response & Hres & _ & Hresp).
    rewrite Hchosen in Hresp. exists response. split; [exact Hres | exact Hresp].
Qed.

Lemma registered_model_exchange_witness :
  authCheck steady_env (hello_request [("model", VStr "teleprompt-apps")]) = None /\
  In ("teleprompt-apps", VStr "/api/v1/prompt/optimize_apps_auth") MODEL_MAP /\
  exists call : FetchCall,
    outbound (snd (handleApi sample_runtime steady_env
                     (hello_request [("model", VStr "teleprompt-apps")]) fresh))
    = [call] /\
    fetch_url call = UPSTREAM_ORIGIN ++ "/api/v1/prompt/optimize_apps_auth" /\
    fetch_headers call = upstreamHeaders "uuid-1@anonymous.user".
Proof.
  assert (Hin : In ("teleprompt-apps", VStr "/api/v1/prompt/optimize_apps_auth") MODEL_MAP)
    by (right; right; left; reflexivity).
  split; [reflexivity | split; [exact Hin |]].
  destruct (registered_model_exchange sample_runtime steady_env
              (hello_request [("model", VStr "teleprompt-apps")])
              (hello_props [("model", VStr "teleprompt-apps")]) [hello] hello fresh
              "teleprompt-apps" "/api/v1/prompt/optimize_apps_auth"
              eq_refl eq_refl (hello_is_chat_body _) hello_is_last_user eq_refl Hin)
    as (call & Hout & _ & Hurl & Hheaders & _).
  exists call. split; [exact Hout | split; [exact Hurl | exact Hheaders]].
Defined.

(* ------------------------------------------------------------------ *)
(** * Bodies of other shapes                                            *)
(* ------------------------------------------------------------------ *)

(** A body that is JSON but neither an object nor null (a number, a string,
    a boolean, an array) has no messages: it is answered with
    invalid_request/400, and nothing else happens. *)
Theorem non_object_body_is_invalid_request (rt : Runtime) (env : Env)
    (request : Request) (requestId : string) (w : World) (body : value) :
  request_json request = Ok body ->
  scalar_or_array body ->
  handleChatCompletions rt env request requestId w = (Ok invalid_request, w).
Proof.
  intros Hjson Hshape.
  unfold handleChatCompletions, try_catch, chatCompletions_try, bind, lift.
  rewrite Hjson.
  destruct body; cbn in Hshape; try contradiction; reflexivity.
Qed.

Lemma non_object_body_is_invalid_request_witness :
  scalar_or_array (VNum 5) /\
  handleChatCompletions sample_runtime steady_env
    {| method := "POST"; pathname := "/v1/chat/completions"; authorization := None;
       request_json := Ok (VNum 5) |} "req-1" fresh
  = (Ok invalid_request, fresh).
Proof.
  split; [exact I |].
  exact (non_object_body_is_invalid_request sample_runtime steady_env
           {| method := "POST"; pathname := "/v1/chat/completions";
              authorization := None; request_json := Ok (VNum 5) |}
           "req-1" fresh (VNum 5) eq_refl I).
Defined.

Lemma Array_find_null (pre post : list value) :
  Forall (fun x => is_user x = Ok false) pre ->
  Array_find is_user (pre ++ VNull :: post) = Throw (TypeError (NullDeref f_role)).
Proof.
  induction 1 as [| x pre Hx _ IH]; simpl; [reflexivity | now rewrite Hx].
Qed.

(** Three bodies that the handler does not survive: the JSON value null, an
    object whose messages are truthy but not an array, and an array of
    messages with a null entry after the latest user message.  Each is
    answered with generation_failed/500 carrying the engine's TypeError
    message, the failure is logged, and no upstream call is made. *)
Theorem broken_body_is_generation_failed (rt : Runtime) (env : Env)
    (request : Request) (requestId : string) (w : World) :
  (request_json request = Ok VNull ->
   handleChatCompletions rt env request requestId w
   = (Ok (generation_failed (fault_message rt (NullDeref f_messages))),
      logged (fault_message rt (NullDeref f_messages)) w)) /\
  (forall (props : list (string * value)),
     request_json request = Ok (VObj props) ->
     truthy (lookup props "messages") = true ->
     (forall items, lookup props "messages" <> VArr items) ->
     handleChatCompletions rt env request requestId w
     = (Ok (generation_failed (fault_message rt (NotCallable "messages.reverse"))),
        logged (fault_message rt (NotCallable "messages.reverse")) w)) /\
  (forall (props : list (string * value)) (before after : list value),
     request_json request = Ok (VObj props) ->
     lookup props "messages" = VArr (before ++ VNull :: after) ->
     Forall (fun x => is_user x = Ok false) after ->
     handleChatCompletions rt env request requestId w
     = (Ok (generation_failed (fault_message rt (NullDeref f_role))),
        logged (fault_message rt (NullDeref f_role)) w)).
Proof.
  split; [| split].
  - intros Hjson.
    unfold handleChatCompletions, try_catch, chatCompletions_try, bind, lift.
    rewrite Hjson. reflexivity.
  - intros props Hjson Htruthy Hnot.
    unfold handleChatCompletions, try_catch, chatCompletions_try, bind at 1, lift at 1.
    rewrite Hjson. unfold bind at 1, lift at 1. cbn [member field_name].
    unfold bind at 1, lift at 1. unfold js_or. rewrite Htruthy.
    destruct (lookup props "messages") as [| | b | z | s | items | mprops | name];
      try discriminate Htruthy; try reflexivity.
    exfalso. exact (Hnot items eq_refl).
  - intros props before after Hjson Hmsgs Hafter.
    unfold handleChatCompletions, try_catch, chatCompletions_try, bind at 1, lift at 1.
    rewrite Hjson. unfold bind at 1, lift at 1. cbn [member field_name].
    unfold bind at 1, lift at 1. rewrite Hmsgs. cbn [js_or truthy].
    unfold find_last_user. cbn [Array_reverse rbind].
    rewrite rev_app_distr. cbn [rev]. rewrite <- app_assoc. cbn [app].
    rewrite Array_find_null by now apply Forall_rev.
    reflexivity.
Qed.

Lemma broken_body_is_generation_failed_witness :
  request_json {| method := "POST"; pathname := "/v1/chat/completions";
                  authorization := None; request_json := Ok VNull |} = Ok VNull /\
  fst (handleChatCompletions sample_runtime steady_env
         {| method := "POST"; pathname := "/v1/chat/completions";
            authorization := None; request_json := Ok VNull |} "req-1" fresh)
  = Ok (generation_failed (fault_message sample_runtime (NullDeref f_messages))).
Proof.
  split; [reflexivity |].
  rewrite (proj1 (broken_body_is_generation_failed sample_runtime steady_env
                    {| method := "POST"; pathname := "/v1/chat/completions";
                       authorization := None; request_json := Ok VNull |}
                    "req-1" fresh) eq_refl).
  reflexivity.
Defined.

(** The prompt is forwarded unchecked.  For a messages array whose latest
    entry with role "user" is the object [u] (whatever stands before it,
    null entries included, and whatever other fields [u] has): when the
    model of the request converts to a property key, there is one upstream
    call and its payload is [{ text: u.content }], whatever JSON value the
    content is, [undefined] when [u] has none; when the model does not
    convert, nothing is sent and the answer is generation_failed/500. *)
Theorem raw_user_message_payload (rt : Runtime) (env : Env) (request : Request)
    (requestId : string) (w : World) (props u : list (string * value))
    (before after : list value) :
  request_json request = Ok (VObj props) ->
  lookup props "messages" = VArr (before ++ VObj u :: after) ->
  lookup u "role" = VStr "user" ->
  Forall (fun x => is_user x = Ok false) after ->
  (unconvertible (chosenModel props) = false ->
   exists call : FetchCall,
     outbound (snd (handleChatCompletions rt env request requestId w))
     = (outbound w ++ [call])%list /\
     fetch_body call = JSON_stringify rt (VObj [("text", lookup u "content")])) /\
  (unconvertible (chosenModel props) = true ->
   outbound (snd (handleChatCompletions rt env request requestId w)) = outbound w /\
   fst (handleChatCompletions rt env request requestId w)
   = Ok (generation_failed (message rt (TypeError NotPrimitive)))).
Proof.
  intros Hjson Hmsgs Hrole Hafter.
  assert (Hfind : find_last_user (VArr (before ++ VObj u :: after)) = Ok (VObj u)).
  { unfold find_last_user. cbn [Array_reverse rbind].
    rewrite rev_app_distr. cbn [rev]. rewrite <- app_assoc. cbn [app].
    apply Array_find_first; [now apply Forall_rev |].
    unfold is_user. cbn [member field_name rbind]. now rewrite Hrole. }
  assert (Htry : chatCompletions_try rt env request requestId w
                 = chatCompletions_forward rt env (VObj props) (VObj u) requestId w).
  { unfold chatCompletions_try, bind at 1, lift at 1. rewrite Hjson.
    unfold bind at 1, lift at 1. cbn [member field_name]. rewrite Hmsgs.
    unfold bind at 1, lift at 1. cbn [js_or truthy]. rewrite Hfind. reflexivity. }
  split; intros Hconv.
  - set (call := {| fetch_url := UPSTREAM_ORIGIN
                                 ++ ToString rt (resolveEndpoint rt (chosenModel props));
                    fetch_method := "POST";
                    fetch_headers := upstreamHeaders
                                       (randomUUID env (uuid_draws w) ++ "@anonymous.user");
                    fetch_body := JSON_stringify rt (VObj [("text", lookup u "content")]) |}).
    assert (Hforward : chatCompletions_forward rt env (VObj props) (VObj u) requestId w
                       = match upstream env call with
                         | Ok response =>
                             chatCompletions_answer rt env (VObj props) (chosenModel props)
                               response requestId (called call w)
                         | Throw e => (Throw e, called call w)
                         end).
    { unfold chatCompletions_forward, bind at 1, lift at 1. cbn [member field_name].
      unfold bind at 1, lift at 1. cbn [member field_name].
      fold (chosenModel props).
      unfold bind at 1, lift at 1, ToPropertyKey. rewrite Hconv.
      reflexivity. }
    exists call. split; [| reflexivity].
    rewrite Hforward in Htry.
    unfold handleChatCompletions, try_catch. rewrite Htry.
    destruct (upstream env call) as [response | e]; [| reflexivity].
    destruct (answer_outcome rt env (VObj props) (chosenModel props) response requestId
                (called call w)) as (n & Hw & _).
    destruct (chatCompletions_answer rt env (VObj props) (chosenModel props) response
                requestId (called call w)) as [[r | e] w1];
      cbn [snd] in Hw; subst w1; reflexivity.
  - assert (Hforward : chatCompletions_forward rt env (VObj props) (VObj u) requestId w
                       = (Throw (TypeError NotPrimitive), w)).
    { unfold chatCompletions_forward, bind at 1, lift at 1. cbn [member field_name].
      unfold bind at 1, lift at 1. cbn [member field_name].
      fold (chosenModel props).
      unfold bind at 1, lift at 1, ToPropertyKey. rewrite Hconv.
      reflexivity. }
    rewrite Hforward in Htry.
    unfold handleChatCompletions, try_catch. rewrite Htry. split; reflexivity.
Qed.

Lemma raw_user_message_payload_witness :
  lookup [("role", VStr "user"); ("content", VNum 42); ("name", VStr "x")] "role"
  = VStr "user" /\
  unconvertible (chosenModel [("messages",
            VArr ([VNull] ++ VObj [("role", VStr "user"); ("content", VNum 42);
                                   ("name", VStr "x")]
                  :: [VObj [("role", VStr "assistant")]]))]) = false /\
  exists call : FetchCall,
    outbound (snd (handleChatCompletions sample_runtime steady_env
       {| method := "POST"; pathname := "/v1/chat/completions"; authorization := None;
          request_json := Ok (VObj [("messages",
            VArr ([VNull] ++ VObj [("role", VStr "user"); ("content", VNum 42);
                                   ("name", VStr "x")]
                  :: [VObj [("role", VStr "assistant")]]))]) |}
       "req-1" fresh)) = [call] /\
    fetch_body call = JSON_stringify sample_runtime (VObj [("text", VNum 42)]).
Proof.
  assert (Hafter : Forall (fun x => is_user x = Ok false)
                     [VObj [("role", VStr "assistant")]]).
  { constructor; [reflexivity | constructor]. }
  split; [reflexivity | split; [reflexivity |]].
  exact (proj1 (raw_user_message_payload sample_runtime steady_env
           {| method := "POST"; pathname := "/v1/chat/completions"; authorization := None;
              request_json := Ok (VObj [("messages",
                VArr ([VNull] ++ VObj [("role", VStr "user"); ("content", VNum 42);
                                       ("name", VStr "x")]
                      :: [VObj [("role", VStr "assistant")]]))]) |}
           "req-1" fresh _ [("role", VStr "user"); ("content", VNum 42); ("name", VStr "x")]
           [VNull] [VObj [("role", VStr "assistant")]]
           eq_refl eq_refl eq_refl Hafter) eq_refl).
Defined.

(** A model that does not convert: the object [{ toString: 1 }] given as
    model is answered with generation_failed/500 before any call. *)
Example object_model_is_generation_failed :
  handleChatCompletions sample_runtime steady_env
    (hello_request [("model", VObj [("toString", VNum 1)])]) "req-1" fresh
  = (Ok (generation_failed "Cannot convert object to primitive value"),
     logged "Cannot convert object to primitive value" fresh).
Proof. vm_compute. reflexivity. Qed.
